(** * devnotes: tools/transcript_to_markdown.py

    A shallow embedding of the transcript normalizer
    ([normalize_role], [coerce_text], [normalize_tool_name],
    [extract_body], [add_usage], [iter_turns]), of the document renderer
    ([quote_yaml], [render_markdown]) and of [main], and the properties
    of turn emission, tool correlation, usage aggregation, metadata
    collection, the rendered document and the command line. *)

From Stdlib Require Import ZArith Ascii String DecimalString.
From Stdlib Require OrderedTypeEx.
From stdpp Require Import gmap strings list fin_maps sorting.

Open Scope string_scope.

Set Warnings "-clear-no-such-hyp".

(** ** Python strings

    A Python [str] is a Stdlib [string].  The [str] methods the program
    calls ([strip], [lower], [capitalize], [startswith], slicing, [repr])
    are embedded on the ASCII range: a code point of 128 or more is kept
    as it is, is not white space and has no case. *)

Module PyStr.

Definition nl : string := String "010" EmptyString.

Definition code (c : ascii) : nat := nat_of_ascii c.

Definition dquote : ascii := "034"%char.
Definition squote : ascii := "039"%char.
Definition backslash : ascii := "092"%char.

(** [str.isspace] on one ASCII character: TAB, LF, VT, FF, CR, the four
    separators FS, GS, RS, US, and the space. *)
Definition is_space (c : ascii) : bool :=
  let n := code c in
  ((9 <=? n)%nat && (n <=? 13)%nat) || ((28 <=? n)%nat && (n <=? 32)%nat).

Fixpoint lstrip (s : string) : string :=
  match s with
  | EmptyString => EmptyString
  | String c r => if is_space c then lstrip r else s
  end.

Fixpoint rstrip (s : string) : string :=
  match s with
  | EmptyString => EmptyString
  | String c r =>
      match rstrip r with
      | EmptyString => if is_space c then EmptyString else String c EmptyString
      | r' => String c r'
      end
  end.

Definition strip (s : string) : string := rstrip (lstrip s).

(** Truth value of a [str]: the empty string is false. *)
Definition truthy (s : string) : bool :=
  match s with EmptyString => false | _ => true end.

Definition lower_char (c : ascii) : ascii :=
  let n := code c in
  if (65 <=? n)%nat && (n <=? 90)%nat then ascii_of_nat (n + 32) else c.

Definition upper_char (c : ascii) : ascii :=
  let n := code c in
  if (97 <=? n)%nat && (n <=? 122)%nat then ascii_of_nat (n - 32) else c.

Fixpoint lower (s : string) : string :=
  match s with
  | EmptyString => EmptyString
  | String c r => String (lower_char c) (lower r)
  end.

Definition capitalize (s : string) : string :=
  match s with
  | EmptyString => EmptyString
  | String c r => String (upper_char c) (lower r)
  end.

Definition startswith (s p : string) : bool := String.prefix p s.

(** The slice [s[n:]]. *)
Fixpoint drop (n : nat) (s : string) : string :=
  match n, s with
  | O, _ => s
  | S n', String _ r => drop n' r
  | S _, EmptyString => EmptyString
  end.

(** [sep.join(parts)]. *)
Definition join (sep : string) (parts : list string) : string :=
  String.concat sep parts.

(** [str(n)] of a Python [int]. *)
Definition of_Z (z : Z) : string := NilZero.string_of_int (Z.to_int z).

Definition of_nat (n : nat) : string := of_Z (Z.of_nat n).

Definition hex_digit (n : nat) : ascii :=
  if (n <? 10)%nat then ascii_of_nat (48 + n) else ascii_of_nat (87 + n).

Definition hex2 (c : ascii) : string :=
  String (hex_digit (code c / 16)) (String (hex_digit (code c mod 16)) EmptyString).

Fixpoint contains_char (c : ascii) (s : string) : bool :=
  match s with
  | EmptyString => false
  | String d r => Ascii.eqb c d || contains_char c r
  end.

(** [repr] of a [str]: single quotes unless the text has a single quote
    and no double quote; the quote and the backslash are escaped, TAB, LF
    and CR by letter, the other control characters as [\xhh]. *)
Definition repr_char (quote c : ascii) : string :=
  let n := code c in
  if Ascii.eqb c quote || Ascii.eqb c backslash
  then String backslash (String c EmptyString)
  else if (n =? 9)%nat then "\t"
  else if (n =? 10)%nat then "\n"
  else if (n =? 13)%nat then "\r"
  else if (n <? 32)%nat || (n =? 127)%nat then "\x" ++ hex2 c
  else String c EmptyString.

Fixpoint repr_body (quote : ascii) (s : string) : string :=
  match s with
  | EmptyString => EmptyString
  | String c r => repr_char quote c ++ repr_body quote r
  end.

Definition repr (s : string) : string :=
  let quote : ascii :=
    if contains_char squote s && negb (contains_char dquote s) then dquote
    else squote in
  String quote (repr_body quote s ++ String quote EmptyString).

End PyStr.

(** ** JSON values

    What [json.loads] returns: [None], [bool], [int], [float], [str],
    [list] and [dict].  A [dict] is the list of its items in insertion
    order (the order [items()] and [json.dumps] follow); a parsed [dict]
    has distinct keys.  A [float] is carried by its Python [repr], the
    text both [str] and [json.dumps] print for a finite one. *)

#[warnings="-register-all"]
Inductive json : Type :=
| JNull
| JBool (b : bool)
| JInt (z : Z)
| JFloat (repr : string)
| JStr (s : string)
| JList (items : list json)
| JObj (fields : list (string * json)).

Module Py.

(** [key in d]. *)
Fixpoint lookup (key : string) (fields : list (string * json)) : option json :=
  match fields with
  | [] => None
  | (k, v) :: rest => if String.eqb k key then Some v else lookup key rest
  end.

(** [d.get(key, dflt)] and [d.get(key)]. *)
Definition get_default (key : string) (dflt : json) (fields : list (string * json)) : json :=
  match lookup key fields with
  | Some v => v
  | None => dflt
  end.

Definition get (key : string) (fields : list (string * json)) : json :=
  get_default key JNull fields.

Definition float_is_zero (repr : string) : bool :=
  String.eqb repr "0.0" || String.eqb repr "-0.0".

(** Truth value of a value, as [or], [if] and [not] test it. *)
Definition truthy (v : json) : bool :=
  match v with
  | JNull => false
  | JBool b => b
  | JInt z => negb (z =? 0)%Z
  | JFloat r => negb (float_is_zero r)
  | JStr s => PyStr.truthy s
  | JList l => match l with [] => false | _ => true end
  | JObj kvs => match kvs with [] => false | _ => true end
  end.

(** [a or b]. *)
Definition or_else (a b : json) : json := if truthy a then a else b.

(** [isinstance(v, str) and v]: the non-empty strings. *)
Definition nonempty_str (v : json) : option string :=
  match v with
  | JStr s => if PyStr.truthy s then Some s else None
  | _ => None
  end.

(** Lists and dicts are unhashable. *)
Definition hashable (v : json) : bool :=
  match v with
  | JList _ | JObj _ => false
  | _ => true
  end.

(** [repr(v)], which is also [str(v)] except on a [str]. *)
Fixpoint repr (v : json) : string :=
  match v with
  | JNull => "None"
  | JBool true => "True"
  | JBool false => "False"
  | JInt z => PyStr.of_Z z
  | JFloat r => r
  | JStr s => PyStr.repr s
  | JList l => "[" ++ PyStr.join ", " (map repr l) ++ "]"
  | JObj kvs =>
      "{" ++ PyStr.join ", "
               (map (fun kv => PyStr.repr (fst kv) ++ ": " ++ repr (snd kv)) kvs)
          ++ "}"
  end.

Definition str (v : json) : string :=
  match v with
  | JStr s => s
  | _ => repr v
  end.

End Py.

(** ** [json.dumps(value, ensure_ascii=False, indent=2)] *)

Module JsonDumps.

(** One character of a string literal: the quote, the backslash and the
    control characters are escaped, the rest is kept. *)
Definition escape_char (c : ascii) : string :=
  let n := PyStr.code c in
  if Ascii.eqb c PyStr.dquote then String PyStr.backslash (String PyStr.dquote EmptyString)
  else if Ascii.eqb c PyStr.backslash then "\\"
  else if (n =? 10)%nat then "\n"
  else if (n =? 13)%nat then "\r"
  else if (n =? 9)%nat then "\t"
  else if (n =? 8)%nat then "\b"
  else if (n =? 12)%nat then "\f"
  else if (n <? 32)%nat then "\u00" ++ PyStr.hex2 c
  else String c EmptyString.

Fixpoint escape (s : string) : string :=
  match s with
  | EmptyString => EmptyString
  | String c r => escape_char c ++ escape r
  end.

Definition encode_str (s : string) : string :=
  String PyStr.dquote (escape s ++ String PyStr.dquote EmptyString).

Definition encode_float (repr : string) : string :=
  if String.eqb repr "nan" then "NaN"
  else if String.eqb repr "inf" then "Infinity"
  else if String.eqb repr "-inf" then "-Infinity"
  else repr.

Fixpoint spaces (n : nat) : string :=
  match n with
  | O => EmptyString
  | S n' => String " " (spaces n')
  end.

Definition newline_indent (level : nat) : string :=
  PyStr.nl ++ spaces (2 * level).

Fixpoint encode (level : nat) (v : json) : string :=
  match v with
  | JNull => "null"
  | JBool true => "true"
  | JBool false => "false"
  | JInt z => PyStr.of_Z z
  | JFloat r => encode_float r
  | JStr s => encode_str s
  | JList [] => "[]"
  | JList l =>
      "[" ++ newline_indent (S level)
          ++ PyStr.join ("," ++ newline_indent (S level)) (map (encode (S level)) l)
          ++ newline_indent level ++ "]"
  | JObj [] => "{}"
  | JObj kvs =>
      "{" ++ newline_indent (S level)
          ++ PyStr.join ("," ++ newline_indent (S level))
               (map (fun kv => encode_str (fst kv) ++ ": " ++ encode (S level) (snd kv)) kvs)
          ++ newline_indent level ++ "}"
  end.

Definition dumps (v : json) : string := encode 0 v.

End JsonDumps.

(** ** Content normalizer *)

(** [coerce_text].  The inner [content] loop is [value["content"]] when the
    key is there and the [json.dumps] fallback when it is not (see
    [coerce_text_dict]). *)
Fixpoint coerce_text (value : json) : string :=
  match value with
  | JNull => EmptyString
  | JStr s => s
  | JList l =>
      PyStr.join PyStr.nl
        (List.filter (fun chunk => PyStr.truthy (PyStr.strip chunk)) (map coerce_text l))
  | JObj fields =>
      match Py.lookup "text" fields with
      | Some (JStr s) => s
      | _ =>
          (fix content (l : list (string * json)) : string :=
             match l with
             | [] => JsonDumps.dumps value
             | (k, v) :: rest =>
                 if String.eqb k "content" then coerce_text v else content rest
             end) fields
      end
  | _ => Py.str value
  end.

Definition normalize_tool_name (name : string) : string :=
  let normalized := PyStr.strip name in
  if PyStr.startswith (PyStr.lower normalized) "tool:"
  then PyStr.drop 5 normalized
  else normalized.

(** The exceptions the parse can raise and nothing catches.  Those of
    the interpreter's limits ([RecursionError] on very deep nesting) and
    those [json.loads] raises other than [JSONDecodeError] are outside
    this embedding: a line is what [json.loads] made of it, and the
    recursive functions are total. *)
Inductive exn : Type :=
| AttributeError
| TypeError.

(** [normalize_role].  [raw_role] is whatever [message.get("role")] gave;
    a true value that is not a [str] has no [strip]. *)
Definition normalize_role (raw_role : json) (fallback : string) : exn + string :=
  let chosen :=
    if Py.truthy raw_role then raw_role
    else if PyStr.truthy fallback then JStr fallback
    else JStr "unknown" in
  match chosen with
  | JStr s =>
      let role := PyStr.lower (PyStr.strip s) in
      inr (if String.eqb role "assistant" then "Assistant"
           else if String.eqb role "user" then "User"
           else if String.eqb role "system" then "System"
           else if PyStr.truthy (PyStr.capitalize role) then PyStr.capitalize role
           else "Unknown")
  | _ => inl AttributeError
  end.

(** The filtering configuration [main] hands to [iter_turns]. *)
Record config : Type := Config {
  include_thinking : bool;
  include_tools : bool;
  only_tools : gset string;
  excluded_tools : gset string
}.

(** ** Tool correlator: the two identifier sets of one parse *)

Record correlator : Type := Correlator {
  globally_excluded_tool_use_ids : gset string;
  globally_included_tool_use_ids : gset string
}.

Definition no_ids : correlator := Correlator ∅ ∅.

(** [if isinstance(tool_use_id, str) and tool_use_id: ids.add(tool_use_id)] *)
Definition add_excluded (tool_use_id : json) (ids : correlator) : correlator :=
  match Py.nonempty_str tool_use_id with
  | Some i =>
      Correlator ({[ i ]} ∪ globally_excluded_tool_use_ids ids)
                 (globally_included_tool_use_ids ids)
  | None => ids
  end.

Definition add_included (tool_use_id : json) (ids : correlator) : correlator :=
  match Py.nonempty_str tool_use_id with
  | Some i =>
      Correlator (globally_excluded_tool_use_ids ids)
                 ({[ i ]} ∪ globally_included_tool_use_ids ids)
  | None => ids
  end.

(** [isinstance(v, str) and v in ids] *)
Definition str_in (v : json) (ids : gset string) : bool :=
  match v with
  | JStr s => bool_decide (s ∈ ids)
  | _ => false
  end.

(** [item_type == tag] *)
Definition is_tag (item_type : json) (tag : string) : bool :=
  match item_type with
  | JStr s => String.eqb s tag
  | _ => false
  end.

(** [if text: parts.append(text)] *)
Definition fragment (text : string) : option string :=
  if PyStr.truthy text then Some text else None.

Definition fence (label text : string) : string :=
  "```" ++ label ++ PyStr.nl ++ text ++ PyStr.nl ++ "```".

(** The name filter on a [tool_use]: the allow-list first, then the
    deny-list. *)
Definition name_excluded (cfg : config) (name : string) : bool :=
  (bool_decide (only_tools cfg ≠ ∅) && negb (bool_decide (name ∈ only_tools cfg)))
  || bool_decide (name ∈ excluded_tools cfg).

Definition tool_name (fields : list (string * json)) : string :=
  normalize_tool_name (Py.str (Py.get_default "name" (JStr "unknown_tool") fields)).

(** The two tests that drop a [tool_result]. *)
Definition result_excluded (cfg : config) (ids : correlator) (tool_use_id : json) : bool :=
  str_in tool_use_id (globally_excluded_tool_use_ids ids)
  || (bool_decide (only_tools cfg ≠ ∅)
      && negb (str_in tool_use_id (globally_included_tool_use_ids ids))).

(** One round of the [for item in content] loop of [extract_body]: the
    identifier sets after it and the part it appends, if any. *)
Definition extract_item (cfg : config) (ids : correlator) (item : json)
  : correlator * option string :=
  match item with
  | JObj fields =>
      let item_type := Py.get "type" fields in
      if is_tag item_type "text" then
        (ids, fragment (PyStr.strip (coerce_text (Py.get "text" fields))))
      else if is_tag item_type "thinking" then
        (ids,
         if include_thinking cfg
         then option_map (fence "thinking")
                (fragment (PyStr.strip (coerce_text (Py.get "thinking" fields))))
         else None)
      else if is_tag item_type "tool_use" then
        if include_tools cfg then
          let name := tool_name fields in
          let tool_use_id := Py.get "id" fields in
          if name_excluded cfg name then (add_excluded tool_use_id ids, None)
          else (add_included tool_use_id ids,
                Some (fence ("tool:" ++ name) (JsonDumps.dumps (Py.get "input" fields))))
        else (ids, None)
      else if is_tag item_type "tool_result" then
        if include_tools cfg then
          if result_excluded cfg ids (Py.get "tool_use_id" fields) then (ids, None)
          else (ids,
                option_map (fence "tool_result")
                  (fragment (PyStr.strip (coerce_text (Py.get "content" fields)))))
        else (ids, None)
      else (ids, fragment (PyStr.strip (coerce_text item)))
  | _ => (ids, fragment (PyStr.strip (coerce_text item)))
  end.

Definition push_part (part : option string) (parts : list string) : list string :=
  match part with
  | Some p => p :: parts
  | None => parts
  end.

(** The whole loop: the identifier sets at its end and [parts]. *)
Fixpoint extract_parts (cfg : config) (ids : correlator) (items : list json)
  : correlator * list string :=
  match items with
  | [] => (ids, [])
  | item :: rest =>
      let '(ids1, part) := extract_item cfg ids item in
      let '(ids2, parts) := extract_parts cfg ids1 rest in
      (ids2, push_part part parts)
  end.

Definition blank_line : string := PyStr.nl ++ PyStr.nl.

(** [extract_body]: the identifier sets it leaves and the body. *)
Definition extract_body (cfg : config) (ids : correlator) (content : json)
  : correlator * string :=
  match content with
  | JStr s => (ids, PyStr.strip s)
  | JList items =>
      let '(ids', parts) := extract_parts cfg ids items in
      (ids', PyStr.strip (PyStr.join blank_line parts))
  | _ => (ids, PyStr.strip (coerce_text content))
  end.

(** ** Metadata aggregator *)

(** [f"{prefix}.{key}" if prefix else str(key)] *)
Definition next_prefix (prefix key : string) : string :=
  if PyStr.truthy prefix then prefix ++ "." ++ key else key.

(** [add_usage], on the [usage_counts] dict it closes over.  A [bool] is
    tested before [int], whose subclass it is. *)
Fixpoint add_usage (prefix : string) (value : json) (usage_counts : gmap string Z)
  : gmap string Z :=
  match value with
  | JObj fields =>
      fold_left
        (fun counts kv => add_usage (next_prefix prefix (fst kv)) (snd kv) counts)
        fields usage_counts
  | JBool _ => usage_counts
  | JInt z => <[ prefix := (default 0 (usage_counts !! prefix) + z)%Z ]> usage_counts
  | _ => usage_counts
  end.

Record Turn : Type := MkTurn {
  index : nat;
  role : string;
  timestamp : json;
  body : string
}.

Record ParseResult : Type := MkParseResult {
  turns : list Turn;
  first_timestamp : option string;
  last_timestamp : option string;
  session_ids : gset string;
  models : gset string;
  versions : gset string;
  cwd_values : gset string;
  branches : gset string;
  role_counts : gmap string nat;
  usage_counts : gmap string Z;
  usage_records : nat
}.

Definition empty_result : ParseResult :=
  MkParseResult [] None None ∅ ∅ ∅ ∅ ∅ ∅ ∅ 0.

(** [if isinstance(v, str) and v: s.add(v)] *)
Definition collect (v : json) (s : gset string) : gset string :=
  match Py.nonempty_str v with
  | Some x => {[ x ]} ∪ s
  | None => s
  end.

(** Lexical minimum and maximum of the event time stamps. *)
Definition earliest (t : string) (first : option string) : option string :=
  match first with
  | None => Some t
  | Some f => if String.ltb t f then Some t else Some f
  end.

Definition latest (t : string) (last : option string) : option string :=
  match last with
  | None => Some t
  | Some l => if String.ltb l t then Some t else Some l
  end.

(** Lines 240-258: the fields read from every event. *)
Definition see_event (fields : list (string * json)) (r : ParseResult) : ParseResult :=
  let stamped :=
    match Py.get "timestamp" fields with
    | JStr t => (earliest t (first_timestamp r), latest t (last_timestamp r))
    | _ => (first_timestamp r, last_timestamp r)
    end in
  MkParseResult (turns r) (fst stamped) (snd stamped)
    (collect (Py.get "sessionId" fields) (session_ids r))
    (models r)
    (collect (Py.get "version" fields) (versions r))
    (collect (Py.get "cwd" fields) (cwd_values r))
    (collect (Py.get "gitBranch" fields) (branches r))
    (role_counts r) (usage_counts r) (usage_records r).

(** Lines 268-274: the model and the usage of a message. *)
Definition see_message (message : list (string * json)) (r : ParseResult) : ParseResult :=
  let counted :=
    match Py.get "usage" message with
    | JObj usage => (add_usage EmptyString (JObj usage) (usage_counts r), S (usage_records r))
    | _ => (usage_counts r, usage_records r)
    end in
  MkParseResult (turns r) (first_timestamp r) (last_timestamp r)
    (session_ids r)
    (collect (Py.get "model" message) (models r))
    (versions r) (cwd_values r) (branches r)
    (role_counts r) (fst counted) (snd counted).

(** Lines 289-293: one more turn. *)
Definition emit_turn (role : string) (timestamp : json) (body : string) (r : ParseResult)
  : ParseResult :=
  MkParseResult
    (turns r ++ [MkTurn (length (turns r) + 1) role timestamp body])
    (first_timestamp r) (last_timestamp r)
    (session_ids r) (models r) (versions r) (cwd_values r) (branches r)
    (<[ role := default 0 (role_counts r !! role) + 1 ]> (role_counts r))
    (usage_counts r) (usage_records r).

(** ** Event stream parser *)

(** The locals of [iter_turns] and what it printed on [sys.stderr]. *)
Record state : Type := MkState {
  parsed : ParseResult;
  ids : correlator;
  stderr : list string
}.

Definition initial : state := MkState empty_result no_ids [].

(** A run returns its state, or dies on an exception nothing catches;
    what was printed before stays printed. *)
Inductive outcome : Type :=
| Returns (st : state)
| Raises (e : exn) (printed : list string).

(** [event_type in {"user", "assistant"}], for a hashable [event_type]. *)
Definition turn_type (event_type : json) : option string :=
  match event_type with
  | JStr s =>
      if String.eqb s "user" || String.eqb s "assistant" then Some s else None
  | _ => None
  end.

(** The body of the line loop from line 240 on, for one decoded event. *)
Definition process_event (cfg : config) (st : state) (event : json) : outcome :=
  match event with
  | JObj fields =>
      let r1 := see_event fields (parsed st) in
      let event_type := Py.get "type" fields in
      if negb (Py.hashable event_type) then Raises TypeError (stderr st)
      else
        match turn_type event_type, Py.get "message" fields with
        | Some fallback, JObj message =>
            let r2 := see_message message r1 in
            match normalize_role (Py.get "role" message) fallback with
            | inl e => Raises e (stderr st)
            | inr role =>
                let '(ids', body) := extract_body cfg (ids st) (Py.get "content" message) in
                if PyStr.truthy body then
                  let timestamp :=
                    Py.or_else (Py.get "timestamp" fields) (Py.get "timestamp" message) in
                  Returns (MkState (emit_turn role timestamp body r2) ids' (stderr st))
                else Returns (MkState r2 ids' (stderr st))
            end
        | _, _ => Returns (MkState r1 (ids st) (stderr st))
        end
  | _ => Raises AttributeError (stderr st)
  end.

(** One line of the file, by what lines 227-238 make of it: nothing is
    left after [strip]; [json.loads] raises [JSONDecodeError] (with the
    text [exc] prints); or [json.loads] returns [event]. *)
Inductive line : Type :=
| Blank
| Invalid (exc : string)
| Parsed (event : json).

Definition diagnostic (line_no : nat) (exc : string) : string :=
  "Skipping invalid JSON line " ++ PyStr.of_nat line_no ++ ": " ++ exc.

Definition process_line (cfg : config) (line_no : nat) (st : state) (l : line) : outcome :=
  match l with
  | Blank => Returns st
  | Invalid exc =>
      Returns (MkState (parsed st) (ids st) (stderr st ++ [diagnostic line_no exc]))
  | Parsed event => process_event cfg st event
  end.

(** [for line_no, line in enumerate(handle, line_no)] *)
Fixpoint run (cfg : config) (line_no : nat) (st : state) (lines : list line) : outcome :=
  match lines with
  | [] => Returns st
  | l :: rest =>
      match process_line cfg line_no st l with
      | Returns st' => run cfg (S line_no) st' rest
      | Raises e printed => Raises e printed
      end
  end.

Definition iter_turns (cfg : config) (lines : list line) : outcome :=
  run cfg 1 initial lines.

(** ** Document renderer *)

(** Two more built-ins: [s.replace(old, new)] for a pattern of one
    character, and [sorted] on strings, which compares code points from
    the left. *)
Module PyLib.

Fixpoint replace_char (old : ascii) (new : string) (s : string) : string :=
  match s with
  | EmptyString => EmptyString
  | String c r =>
      (if Ascii.eqb c old then new else String c EmptyString) ++ replace_char old new r
  end.

Definition str_le (a b : string) : Prop := String.leb a b = true.

Definition str_le_dec (a b : string) : Decision (str_le a b) :=
  decide (String.leb a b = true).

Definition sorted (l : list string) : list string :=
  @merge_sort string str_le str_le_dec l.

End PyLib.

(** [quote_yaml]: [escaped] has the backslashes doubled first, then a
    backslash put before every quote. *)
Definition yaml_escaped (value : string) : string :=
  PyLib.replace_char PyStr.dquote
    (String PyStr.backslash (String PyStr.dquote EmptyString))
    (PyLib.replace_char PyStr.backslash "\\" value).

Definition quote_yaml (value : string) : string :=
  String PyStr.dquote (yaml_escaped value ++ String PyStr.dquote EmptyString).

(** [if stamp: lines.append(f"label: {quote_yaml(stamp)}")] *)
Definition stamp_line (label : string) (stamp : option string) : list string :=
  match stamp with
  | Some t => if PyStr.truthy t then [label ++ ": " ++ quote_yaml t] else []
  | None => []
  end.

(** One of the five blocks of lines 327-346: the label, then the values
    of the set in sorted order. *)
Definition listing (label : string) (values : gset string) : list string :=
  if bool_decide (values ≠ ∅)
  then (label ++ ":") :: map (fun v => "  - " ++ quote_yaml v) (PyLib.sorted (elements values))
  else [].

(** Lines 348-350 and 352-356.  The keys come from the dict itself, so
    the look-up cannot fail. *)
Definition role_lines (counts : gmap string nat) : list string :=
  map (fun role => "  " ++ role ++ ": " ++ PyStr.of_nat (default 0 (counts !! role)))
    (PyLib.sorted (elements (dom counts))).

Definition usage_lines_of (counts : gmap string Z) (records : nat) : list string :=
  if bool_decide (counts ≠ ∅) || negb (records =? 0)%nat
  then "usage:" :: ("  records: " ++ PyStr.of_nat records)
       :: map (fun key => "  " ++ key ++ ": " ++ PyStr.of_Z (default 0%Z (counts !! key)))
            (PyLib.sorted (elements (dom counts)))
  else [].

(** Lines 319-358: the front matter. *)
Definition front_matter (source : string) (result : ParseResult) : list string :=
  List.concat
    [["---"; "source: " ++ quote_yaml source;
      "messages: " ++ PyStr.of_nat (length (turns result))];
     stamp_line "first_timestamp" (first_timestamp result);
     stamp_line "last_timestamp" (last_timestamp result);
     listing "session_ids" (session_ids result);
     listing "models" (models result);
     listing "versions" (versions result);
     listing "cwd" (cwd_values result);
     listing "git_branches" (branches result);
     ["role_counts:"];
     role_lines (role_counts result);
     usage_lines_of (usage_counts result) (usage_records result);
     ["---"; EmptyString]].

(** Lines 367-369: the heading of one turn. *)
Definition title (turn : Turn) : string :=
  "## " ++ PyStr.of_nat (index turn) ++ ". " ++ role turn
  ++ (if Py.truthy (timestamp turn) then " (" ++ Py.str (timestamp turn) ++ ")"
      else EmptyString).

Definition turn_lines (turn : Turn) : list string :=
  [title turn; EmptyString; body turn; EmptyString].

(** Lines 360-373: the conversation, its five opening lines first. *)
Definition conversation_head (source : string) (messages : nat) : list string :=
  ["# Conversation"; EmptyString; "- Source: `" ++ source ++ "`";
   "- Messages: " ++ PyStr.of_nat messages; EmptyString].

Definition conversation (source : string) (result : ParseResult) : list string :=
  List.app (conversation_head source (length (turns result)))
    (flat_map turn_lines (turns result)).

(** [render_markdown]; [source] is the text [str(source)] of the path. *)
Definition render_markdown (source : string) (result : ParseResult) : string :=
  PyStr.rstrip
    (PyStr.join PyStr.nl (List.app (front_matter source result) (conversation source result)))
  ++ PyStr.nl.

(** ** Command line *)

(** What [parse_args] returns.  [input] is the text of the path after
    [expanduser().resolve()], [output] that of the output path after
    [expanduser()]. *)
Module Args.

Record t : Type := Make {
  input : string;
  output : option string;
  include_thinking : bool;
  include_tools : bool;
  exclude_tools : list string;
  only_tools : list string
}.

End Args.

(** [{normalize_tool_name(t) for t in names if normalize_tool_name(t)}] *)
Definition tool_set (names : list string) : gset string :=
  list_to_set (List.filter PyStr.truthy (map normalize_tool_name names)).

(** Lines 385-395 of [main]: the filters handed to [iter_turns]. *)
Definition main_config (args : Args.t) : config :=
  let excluded_tools := tool_set (Args.exclude_tools args) in
  let only_tools := tool_set (Args.only_tools args) in
  Config (Args.include_thinking args)
    (Args.include_tools args
     || bool_decide (excluded_tools ≠ ∅) || bool_decide (only_tools ≠ ∅))
    only_tools excluded_tools.

(** How [main] ends: it returns an exit code, having written [stdout],
    printed the lines [printed] on [sys.stderr] and, with [-o], written
    the text of a file; or an exception goes through, one of the parse or
    the one raised when the document cannot be encoded as it is
    written. *)
Inductive main_exn : Type :=
| ParseError (e : exn)
| UnicodeEncodeError.

Inductive ending : Type :=
| Exits (code : nat) (stdout : string) (printed : list string)
        (written : option (string * string))
| Dies (e : main_exn) (printed : list string).

(** [main].  [file] is the input: [None] when [input_path.exists()] is
    false, the lines of the file otherwise.  [encodes] tells whether the
    document can be encoded for where it goes (it cannot when a text of
    the transcript holds a lone surrogate); what is left of an output
    file in that case is not modelled. *)
Definition main (args : Args.t) (file : option (list line)) (encodes : string → bool)
  : ending :=
  match file with
  | None => Exits 2 EmptyString ["Input file not found: " ++ Args.input args] None
  | Some lines =>
      match iter_turns (main_config args) lines with
      | Raises e printed => Dies (ParseError e) printed
      | Returns st =>
          let markdown := render_markdown (Args.input args) (parsed st) in
          if encodes markdown then
            match Args.output args with
            | Some output_path =>
                Exits 0 EmptyString (stderr st) (Some (output_path, markdown))
            | None => Exits 0 markdown (stderr st) None
            end
          else Dies UnicodeEncodeError (stderr st)
      end
  end.

(** ** Auxiliary notions used by the statements *)

(** The decision [coerce_text] takes on a mapping, with the look-ups
    written as [Py.lookup]. *)
Definition mapping_rule (fields : list (string * json)) : string :=
  match Py.lookup "text" fields with
  | Some (JStr s) => s
  | _ =>
      match Py.lookup "content" fields with
      | Some inner => coerce_text inner
      | None => JsonDumps.dumps (JObj fields)
      end
  end.

(** The rule read without the [text] key: [content] if present, the
    pretty-printed mapping if not. *)
Definition content_or_dump (fields : list (string * json)) : string :=
  match Py.lookup "content" fields with
  | Some inner => coerce_text inner
  | None => JsonDumps.dumps (JObj fields)
  end.

(** The four type tags the loop of [extract_body] knows. *)
Definition recognized_tag (item_type : json) : bool :=
  is_tag item_type "text" || is_tag item_type "thinking"
  || is_tag item_type "tool_use" || is_tag item_type "tool_result".

(** [chunk.strip()] is true. *)
Definition nonblank (chunk : string) : bool := PyStr.truthy (PyStr.strip chunk).

(** The gate of lines 260-266: the event type is one of the two turn
    types and the message is a mapping. *)
Definition turn_message (fields : list (string * json))
  : option (string * list (string * json)) :=
  match turn_type (Py.get "type" fields), Py.get "message" fields with
  | Some fallback, JObj message => Some (fallback, message)
  | _, _ => None
  end.

(** The block a [tool_result] item appends when it is kept. *)
Definition rendered_result (fields : list (string * json)) : option string :=
  option_map (fence "tool_result")
    (fragment (PyStr.strip (coerce_text (Py.get "content" fields)))).

Definition state_after (o : outcome) : state :=
  match o with
  | Returns st => st
  | Raises _ _ => initial
  end.

(** The integer leaves of a usage value with the keys that lead to each:
    mappings are walked, a [bool] and any leaf that is not an [int] give
    nothing. *)
Fixpoint int_leaves (path : list string) (value : json) : list (list string * Z) :=
  match value with
  | JObj fields => flat_map (fun kv => int_leaves (path ++ [fst kv]) (snd kv)) fields
  | JInt z => [(path, z)]
  | _ => []
  end.

(** The dotted key of a path, as [add_usage] builds it going down. *)
Definition dotted (path : list string) : string :=
  fold_left next_prefix path EmptyString.

Definition keyed_leaves (value : json) : list (string * Z) :=
  map (fun leaf => (dotted (fst leaf), snd leaf)) (int_leaves [] value).

(** [usage_counts[key] = usage_counts.get(key, 0) + z] *)
Definition add_leaf (counts : gmap string Z) (leaf : string * Z) : gmap string Z :=
  <[ fst leaf := (default 0 (counts !! fst leaf) + snd leaf)%Z ]> counts.

(** Whether a leaf has the key, and the sum of the leaves that have it. *)
Definition has_key (key : string) (leaves : list (string * Z)) : bool :=
  existsb (fun leaf => String.eqb (fst leaf) key) leaves.

Definition sum_at (key : string) (leaves : list (string * Z)) : Z :=
  fold_right (fun leaf acc => if String.eqb (fst leaf) key then (snd leaf + acc)%Z else acc)
    0%Z leaves.

(** The usage mapping a line's message carries, behind the gate. *)
Definition line_usage (l : line) : option (list (string * json)) :=
  match l with
  | Parsed (JObj fields) =>
      match turn_message fields with
      | Some (_, message) =>
          match Py.get "usage" message with
          | JObj usage => Some usage
          | _ => None
          end
      | None => None
      end
  | _ => None
  end.

(** The exception a line ends the run with, if any. *)
Definition line_raises (l : line) : option exn :=
  match l with
  | Parsed (JObj fields) =>
      if negb (Py.hashable (Py.get "type" fields)) then Some TypeError
      else
        match turn_message fields with
        | Some (fallback, message) =>
            match normalize_role (Py.get "role" message) fallback with
            | inl e => Some e
            | inr _ => None
            end
        | None => None
        end
  | Parsed _ => Some AttributeError
  | _ => None
  end.

(** The body [iter_turns] extracts for an event, empty when the event
    does not pass the gate, and whether the event appends a turn. *)
Definition event_body (cfg : config) (ids : correlator) (fields : list (string * json))
  : string :=
  match turn_message fields with
  | Some (_, message) => (extract_body cfg ids (Py.get "content" message)).2
  | None => EmptyString
  end.

Definition emits (cfg : config) (ids : correlator) (fields : list (string * json)) : bool :=
  PyStr.truthy (event_body cfg ids fields).

(** The identifier sets after a line. *)
Definition ids_after (cfg : config) (ids : correlator) (l : line) : correlator :=
  match l with
  | Parsed (JObj fields) =>
      match turn_message fields with
      | Some (_, message) => (extract_body cfg ids (Py.get "content" message)).1
      | None => ids
      end
  | _ => ids
  end.

Definition line_emits (cfg : config) (ids : correlator) (l : line) : bool :=
  match l with
  | Parsed (JObj fields) => emits cfg ids fields
  | _ => false
  end.

(** The number of lines that are events of a turn type with a mapping
    for message and a non-empty body, the identifier sets being threaded
    from line to line. *)
Fixpoint emitting_events (cfg : config) (ids : correlator) (lines : list line) : nat :=
  match lines with
  | [] => 0
  | l :: rest =>
      (if line_emits cfg ids l then 1 else 0)
      + emitting_events cfg (ids_after cfg ids l) rest
  end.

(** What a run leaves: the result or the exception, and the diagnostics. *)
Definition fate (o : outcome) : exn + ParseResult :=
  match o with
  | Returns st => inr (parsed st)
  | Raises e _ => inl e
  end.

Definition printed_of (o : outcome) : list string :=
  match o with
  | Returns st => stderr st
  | Raises _ printed => printed
  end.

(** A non-empty string under [key] of an event, and the non-empty model
    of a message behind the gate. *)
Definition event_field (key : string) (l : line) : option string :=
  match l with
  | Parsed (JObj fields) => Py.nonempty_str (Py.get key fields)
  | _ => None
  end.

Definition message_model (l : line) : option string :=
  match l with
  | Parsed (JObj fields) =>
      match turn_message fields with
      | Some (_, message) => Py.nonempty_str (Py.get "model" message)
      | None => None
      end
  | _ => None
  end.

(** The model of the message of any event, whatever its type. *)
Definition any_message_model (l : line) : option string :=
  match l with
  | Parsed (JObj fields) =>
      match Py.get "message" fields with
      | JObj message => Py.nonempty_str (Py.get "model" message)
      | _ => None
      end
  | _ => None
  end.

Definition strings_of (f : line → option string) (lines : list line) : gset string :=
  list_to_set (omap f lines).

(** The sum of the role counters, and the turns of one role. *)
Definition total (counts : gmap string nat) : nat :=
  map_fold (fun _ n acc => n + acc) 0 counts.

Definition turns_with_role (r : string) (ts : list Turn) : nat :=
  length (List.filter (fun t => String.eqb (role t) r) ts).

(** The keyed integer leaves of all the usage mappings of a stream. *)
Definition usage_leaves_of (lines : list line) : list (string * Z) :=
  flat_map
    (fun l => match line_usage l with
              | Some usage => keyed_leaves (JObj usage)
              | None => []
              end) lines.

(** The invariant of the turn list and the role counters. *)
Definition well_counted (r : ParseResult) : Prop :=
  (∀ i t, turns r !! i = Some t → index t = i + 1)
  ∧ total (role_counts r) = length (turns r)
  ∧ (∀ name, default 0 (role_counts r !! name) = turns_with_role name (turns r)).

Abbreviation excluded_of ids := (globally_excluded_tool_use_ids ids).
Abbreviation included_of ids := (globally_included_tool_use_ids ids).

(** Whether an element is a mapping, and the fragments of a sequence
    that has no mapping among its elements: each element normalized and
    trimmed, the empty results left out. *)
Definition is_mapping (item : json) : bool :=
  match item with
  | JObj _ => true
  | _ => false
  end.

Definition plain_fragments (items : list json) : list string :=
  List.filter PyStr.truthy (map (fun item => PyStr.strip (coerce_text item)) items).

(** ** Sample inputs *)

Definition plain : config := Config false false ∅ ∅.

Definition nested_pair : json := JList [JList [JStr "a"; JStr "b"]].

Definition text_and_content : list (string * json) :=
  [("text", JStr "hi"); ("content", JStr "x")].

Definition note_mapping : list (string * json) :=
  [("kind", JStr "note"); ("content", JList [JStr "x"; JStr "y"])].

Definition deny_read : config := Config false true ∅ {[ "Read" ]}.
Definition only_grep : config := Config false true {[ "Grep" ]} ∅.
Definition all_tools : config := Config false true ∅ ∅.

Definition read_use : list (string * json) :=
  [("type", JStr "tool_use"); ("name", JStr "tool:Read"); ("id", JStr "t1");
   ("input", JObj [("path", JStr "notes.md")])].

Definition read_result : list (string * json) :=
  [("type", JStr "tool_result"); ("tool_use_id", JStr "t1"); ("content", JStr "secret")].

Definition message_event (type role : string) (content : json) : list (string * json) :=
  [("type", JStr type); ("message", JObj [("role", JStr role); ("content", content)])].

Definition tid_of_read : string := "t1".

(** The state after an assistant message whose content is the [Read]
    call, under the deny-list, and after a user line that follows. *)
Definition after_read : state :=
  state_after
    (process_event deny_read initial
       (JObj (message_event "assistant" "assistant" (JList [JObj read_use])))).

Definition after_read_and_chat : state :=
  state_after
    (run deny_read 2 after_read
       [Parsed (JObj (message_event "user" "user" (JStr "hello")))]).

(** A user line, a line that does not decode, an assistant line. *)
Definition three_lines : list line :=
  [Parsed (JObj (message_event "user" "user" (JStr "hi")));
   Invalid "Expecting value: line 1 column 1 (char 0)";
   Parsed (JObj (message_event "assistant" "assistant" (JStr "hello")))].

Definition three_line_state : state := state_after (iter_turns plain three_lines).

(** An event of another type that carries a session and a model. *)
Definition system_line : line :=
  Parsed (JObj [("type", JStr "system"); ("sessionId", JStr "s1");
                ("message", JObj [("model", JStr "claude-x"); ("content", JStr "note")])]).

Definition system_state : state := state_after (iter_turns plain [system_line]).

(** A user line whose message names a model and has nothing to show. *)
Definition silent_line : line :=
  Parsed (JObj [("type", JStr "user"); ("cwd", JStr "/work");
                ("message", JObj [("model", JStr "claude-y"); ("content", JStr "  ")])]).

Definition silent_state : state := state_after (iter_turns plain [silent_line]).

(** A usage payload with a nested mapping, a flag and a ratio; a stream
    of three messages with usage, one of them without any integer leaf,
    and the same lines in another order. *)
Definition token_usage : json :=
  JObj [("input_tokens", JInt 10);
        ("cache", JObj [("read", JInt 5); ("hit", JBool true)]);
        ("ratio", JFloat "0.5")].

Definition usage_line (type : string) (usage : json) : line :=
  Parsed (JObj [("type", JStr type); ("message", JObj [("usage", usage)])]).

Definition usage_lines : list line :=
  [usage_line "assistant" token_usage;
   usage_line "user" (JObj [("input_tokens", JInt 1)]);
   usage_line "assistant" (JObj [("tier", JStr "standard")])].

Definition usage_lines_shuffled : list line :=
  [usage_line "assistant" (JObj [("tier", JStr "standard")]);
   usage_line "assistant" token_usage;
   usage_line "user" (JObj [("input_tokens", JInt 1)])].

Definition usage_state : state := state_after (iter_turns plain usage_lines).

(** Inputs off the beaten track: a [tool_result] mapping that is the
    whole content instead of an item of a sequence, a line that decodes
    to something other than a mapping, an event whose type is a list, a
    message whose role is a number. *)
Definition bare_result_line : line :=
  Parsed (JObj (message_event "user" "user" (JObj read_result))).

Definition number_line : line := Parsed (JInt 5).

Definition list_type_line : line :=
  Parsed (JObj [("type", JList [JStr "user"]); ("sessionId", JStr "s1")]).

Definition numeric_role_line : line :=
  Parsed (JObj [("type", JStr "user");
                ("message", JObj [("role", JInt 7); ("content", JStr "hi")])]).

(** The scenarios of the specification: the [Read] call and its result
    in two messages, and one usage payload twice. *)
Definition read_lines : list line :=
  [Parsed (JObj (message_event "assistant" "assistant" (JList [JObj read_use])));
   Parsed (JObj (message_event "user" "user" (JList [JObj read_result])))].

Definition cache_usage : json :=
  JObj [("input_tokens", JInt 10); ("cache", JObj [("read", JInt 5)])].

(** ** Notions used by the statements about the rest of the module *)

(** A text of ASCII characters only, the range on which the [str]
    methods are embedded. *)
Fixpoint ascii_only (s : string) : bool :=
  match s with
  | EmptyString => true
  | String c r => (PyStr.code c <? 128)%nat && ascii_only r
  end.

(** A string of white space only. *)
Fixpoint all_space (s : string) : bool :=
  match s with
  | EmptyString => true
  | String c r => PyStr.is_space c && all_space r
  end.

(** Reading back what [quote_yaml] writes: after the opening quote a
    backslash makes the next character literal, and the first quote that
    is not escaped has to be the last character. *)
Fixpoint read_escaped (s : string) : option string :=
  match s with
  | EmptyString => None
  | String c r =>
      if Ascii.eqb c PyStr.dquote then
        match r with
        | EmptyString => Some EmptyString
        | _ => None
        end
      else if Ascii.eqb c PyStr.backslash then
        match r with
        | String d r' => option_map (String d) (read_escaped r')
        | EmptyString => None
        end
      else option_map (String c) (read_escaped r)
  end.

Definition unquote_yaml (s : string) : option string :=
  match s with
  | String c r => if Ascii.eqb c PyStr.dquote then read_escaped r else None
  | EmptyString => None
  end.

(** The type tag of a content item, and the items the two switches are
    about. *)
Definition item_tag (item : json) : json :=
  match item with
  | JObj fields => Py.get "type" fields
  | _ => JNull
  end.

Definition is_thinking_item (item : json) : bool := is_tag (item_tag item) "thinking".

Definition is_tool_item (item : json) : bool :=
  is_tag (item_tag item) "tool_use" || is_tag (item_tag item) "tool_result".

(** A value with a backslash and a quote in it. *)
Definition path_with_quote : string :=
  String "a" (String PyStr.backslash (String PyStr.dquote "b")).

(** A [thinking] item. *)
Definition musing : list (string * json) :=
  [("type", JStr "thinking"); ("thinking", JStr "hm")].

(** What every emitted turn satisfies: a body that is not empty and that
    [strip] leaves as it is, and a label that is not empty. *)
Definition normal_turn (t : Turn) : Prop :=
  body t ≠ EmptyString ∧ PyStr.strip (body t) = body t ∧ role t ≠ EmptyString.

(** A message whose role and text are padded, and one with nothing but
    white space. *)
Definition padded_lines : list line :=
  [Parsed (JObj (message_event "user" " REVIEWER " (JStr ("  looks fine" ++ PyStr.nl))));
   Parsed (JObj (message_event "user" "user" (JStr "   ")))].

(** A [Grep] call under the allow-list, and its result two lines later. *)
Definition grep_use : list (string * json) :=
  [("type", JStr "tool_use"); ("name", JStr "Grep"); ("id", JStr "t9");
   ("input", JObj [("pattern", JStr "TODO")])].

Definition grep_result : list (string * json) :=
  [("type", JStr "tool_result"); ("tool_use_id", JStr "t9");
   ("content", JStr "3 matches")].

Definition after_grep : state :=
  state_after
    (process_event only_grep initial
       (JObj (message_event "assistant" "assistant"
                (JList [JStr "searching"; JObj grep_use])))).

Definition after_grep_and_chat : state :=
  state_after
    (run only_grep 2 after_grep
       [Parsed (JObj (message_event "user" "user" (JStr "go on")))]).

(** The time stamp of an event, when it is a string, and those of a
    stream in the order of the lines. *)
Definition event_stamp (l : line) : option string :=
  match l with
  | Parsed (JObj fields) =>
      match Py.get "timestamp" fields with
      | JStr t => Some t
      | _ => None
      end
  | _ => None
  end.

Definition stamps_of (lines : list line) : list string := omap event_stamp lines.

(** [first] is among the stamps and no stamp is before it; [last] is
    among them and none is after it; there is neither when there is no
    stamp. *)
Definition least_of (stamps : list string) (first : option string) : Prop :=
  match first with
  | Some f => f ∈ stamps ∧ ∀ t, t ∈ stamps → String.leb f t = true
  | None => stamps = []
  end.

Definition greatest_of (stamps : list string) (last : option string) : Prop :=
  match last with
  | Some l => l ∈ stamps ∧ ∀ t, t ∈ stamps → String.leb t l = true
  | None => stamps = []
  end.

(** The diagnostics of the lines that do not decode, the first line
    having the number [line_no]. *)
Fixpoint diagnostics (line_no : nat) (lines : list line) : list string :=
  match lines with
  | [] => []
  | Invalid exc :: rest => diagnostic line_no exc :: diagnostics (S line_no) rest
  | _ :: rest => diagnostics (S line_no) rest
  end.

(** Events with time stamps out of order, one of them of no turn type. *)
Definition stamped_lines : list line :=
  [Parsed (JObj [("type", JStr "user"); ("timestamp", JStr "2024-05-02T10:00:00Z")]);
   Parsed (JObj [("type", JStr "summary"); ("timestamp", JStr "2024-05-01T09:00:00Z")]);
   Blank;
   Parsed (JObj [("type", JStr "user"); ("timestamp", JInt 7)]);
   Parsed (JObj [("type", JStr "assistant"); ("timestamp", JStr "2024-05-03T08:00:00Z")])].

(** Two lines that do not decode among lines that do, and a blank one. *)
Definition noisy_lines : list line :=
  [Parsed (JObj (message_event "user" "user" (JStr "hi")));
   Invalid "Extra data";
   Blank;
   Invalid "Expecting value";
   Parsed (JObj (message_event "assistant" "assistant" (JStr "hello")))].

(** [b] has everything [a] has: the turns of [a] first, the sets of [a]
    within its own, no counter lower. *)
Definition extends (a b : ParseResult) : Prop :=
  turns a `prefix_of` turns b
  ∧ session_ids a ⊆ session_ids b
  ∧ models a ⊆ models b
  ∧ versions a ⊆ versions b
  ∧ cwd_values a ⊆ cwd_values b
  ∧ branches a ⊆ branches b
  ∧ (∀ name, (default 0 (role_counts a !! name) ≤ default 0 (role_counts b !! name))%nat)
  ∧ (usage_records a ≤ usage_records b)%nat.

(** A command line: the deny-list names [Read] with the prefix, in capitals
    and with white space, and has a name that is nothing but the prefix. *)
Definition sample_args : Args.t :=
  Args.Make "/tmp/session.jsonl" None false false [" TOOL:Read "; "tool:"] [].

(** Two results with the same metadata: time stamps, the five sets, the
    usage sums and the record counter. *)
Definition same_metadata (a b : ParseResult) : Prop :=
  first_timestamp a = first_timestamp b
  ∧ last_timestamp a = last_timestamp b
  ∧ session_ids a = session_ids b
  ∧ models a = models b
  ∧ versions a = versions b
  ∧ cwd_values a = cwd_values b
  ∧ branches a = branches b
  ∧ usage_counts a = usage_counts b
  ∧ usage_records a = usage_records b.

Definition is_blank (l : line) : bool :=
  match l with
  | Blank => true
  | _ => false
  end.

(** A line with metadata, usage and a tool call. *)
Definition rich_lines : list line :=
  [Parsed (JObj [("type", JStr "assistant"); ("sessionId", JStr "s1");
                 ("timestamp", JStr "2024-05-01T09:00:00Z");
                 ("message", JObj [("model", JStr "m1");
                                   ("usage", JObj [("output_tokens", JInt 4)]);
                                   ("content", JList [JObj read_use; JStr "reading"])])]);
   Blank;
   Invalid "Expecting value"].

(** * Properties *)

(** ** Content normalizer *)

Section Normalizer.

Implicit Types (cfg : config) (ids : correlator) (fields : list (string * json)).

Lemma content_loop (whole : json) fields :
  (fix content (l : list (string * json)) : string :=
     match l with
     | [] => JsonDumps.dumps whole
     | (k, v) :: rest =>
         if String.eqb k "content" then coerce_text v else content rest
     end) fields
  = match Py.lookup "content" fields with
    | Some inner => coerce_text inner
    | None => JsonDumps.dumps whole
    end.
Proof.
  induction fields as [|[k v] rest IH]; [reflexivity|].
  cbn [Py.lookup]. destruct (String.eqb k "content"); [reflexivity|exact IH].
Qed.

Lemma coerce_text_dict fields : coerce_text (JObj fields) = mapping_rule fields.
Proof.
  unfold mapping_rule. cbn [coerce_text]. rewrite content_loop.
  destruct (Py.lookup "text" fields) as [[]|]; reflexivity.
Qed.

Lemma fence_truthy label text : PyStr.truthy (fence label text) = true.
Proof. reflexivity. Qed.

Lemma fragment_truthy text p : fragment text = Some p → PyStr.truthy p = true.
Proof.
  unfold fragment. destruct (PyStr.truthy text) eqn:E; intros H; inversion H; subst; exact E.
Qed.

Lemma fenced_fragment_truthy label text p :
  option_map (fence label) (fragment text) = Some p → PyStr.truthy p = true.
Proof.
  destruct (fragment text); intros H; inversion H. apply fence_truthy.
Qed.

(** Whatever an item appends is a non-empty string. *)
Lemma extract_item_truthy cfg ids item ids' p :
  extract_item cfg ids item = (ids', Some p) → PyStr.truthy p = true.
Proof.
  unfold extract_item.
  destruct item; try (intros H; inversion H; eauto using fragment_truthy; fail).
  repeat match goal with
         | |- context [if ?b then _ else _] => destruct b
         end;
    intros H; inversion H;
    eauto using fragment_truthy, fenced_fragment_truthy, fence_truthy.
Qed.

Lemma extract_parts_truthy cfg items : ∀ ids,
  Forall (fun p => PyStr.truthy p = true) (extract_parts cfg ids items).2.
Proof.
  induction items as [|item rest IH]; intros ids; cbn [extract_parts].
  - constructor.
  - destruct (extract_item cfg ids item) as [ids1 part] eqn:E1.
    specialize (IH ids1).
    destruct (extract_parts cfg ids1 rest) as [ids2 parts]. cbn in *.
    destruct part as [p|]; cbn; [constructor|]; eauto using extract_item_truthy.
Qed.

(** The loop over a concatenation: the second half starts from the
    identifier sets the first half left, and its parts follow. *)
Lemma extract_parts_app cfg items1 items2 : ∀ ids,
  extract_parts cfg ids (items1 ++ items2)
  = ((extract_parts cfg (extract_parts cfg ids items1).1 items2).1,
     ((extract_parts cfg ids items1).2
        ++ (extract_parts cfg (extract_parts cfg ids items1).1 items2).2)%list).
Proof.
  induction items1 as [|item rest IH]; intros ids; cbn [extract_parts app].
  - cbn. destruct (extract_parts cfg ids items2); reflexivity.
  - destruct (extract_item cfg ids item) as [ids1 part].
    rewrite IH.
    destruct (extract_parts cfg ids1 rest) as [ids2 parts]. cbn.
    destruct part; reflexivity.
Qed.

Lemma extract_item_plain cfg ids item :
  is_mapping item = false →
  extract_item cfg ids item = (ids, fragment (PyStr.strip (coerce_text item))).
Proof. destruct item; [reflexivity..|discriminate]. Qed.

Lemma extract_parts_plain cfg items : ∀ ids,
  Forall (fun item => is_mapping item = false) items →
  extract_parts cfg ids items = (ids, plain_fragments items).
Proof.
  induction items as [|item rest IH]; intros ids Hall; [reflexivity|].
  apply Forall_cons in Hall as [Hitem Hrest].
  cbn [extract_parts]. rewrite (extract_item_plain cfg ids item Hitem), (IH ids Hrest).
  unfold plain_fragments, fragment. cbn [map List.filter].
  destruct (PyStr.truthy (PyStr.strip (coerce_text item))); reflexivity.
Qed.

End Normalizer.

Section NormalizerClaims.

Implicit Types (cfg : config) (ids : correlator) (fields : list (string * json)).

(** C7, as amended.  The loop of [extract_body] over a sequence takes
    the elements in order: nothing from no element, and from an element
    followed by others the part of that element, if it has one, before
    the parts of the others.  An element that is not a mapping is
    normalized by [coerce_text] and trimmed, and is left out when that is
    empty; so a sequence without mappings has for body its non-empty
    fragments joined by a blank line, then trimmed.  In general the parts
    are non-empty, those of a concatenation are those of its halves, and
    the body is the parts joined by a blank line, then trimmed.  An
    element that is itself a sequence goes through [coerce_text], which
    joins the chunks that are not blank by ONE newline, not by a blank
    line. *)
Theorem sequence_parts_joined cfg ids items :
  (extract_body cfg ids (JList items)).2
    = PyStr.strip (PyStr.join blank_line (extract_parts cfg ids items).2)
  ∧ Forall (fun p => PyStr.truthy p = true) (extract_parts cfg ids items).2
  ∧ extract_parts cfg ids [] = (ids, [])
  ∧ (∀ item rest,
        extract_parts cfg ids (item :: rest)
        = ((extract_parts cfg (extract_item cfg ids item).1 rest).1,
           push_part (extract_item cfg ids item).2
             (extract_parts cfg (extract_item cfg ids item).1 rest).2))
  ∧ (∀ item,
        is_mapping item = false →
        extract_item cfg ids item = (ids, fragment (PyStr.strip (coerce_text item))))
  ∧ (Forall (fun item => is_mapping item = false) items →
        extract_body cfg ids (JList items)
        = (ids, PyStr.strip (PyStr.join blank_line (plain_fragments items))))
  ∧ (∀ items1 items2,
        (extract_parts cfg ids (items1 ++ items2)).2
        = ((extract_parts cfg ids items1).2
           ++ (extract_parts cfg (extract_parts cfg ids items1).1 items2).2)%list)
  ∧ (∀ nested,
        extract_item cfg ids (JList nested)
        = (ids, fragment (PyStr.strip (coerce_text (JList nested))))
        ∧ coerce_text (JList nested)
          = PyStr.join PyStr.nl (List.filter nonblank (map coerce_text nested))).
Proof.
  split; [|split; [|split; [|split; [|split; [|split; [|split]]]]]].
  - cbn [extract_body]. destruct (extract_parts cfg ids items); reflexivity.
  - apply extract_parts_truthy.
  - reflexivity.
  - intros item rest. cbn [extract_parts].
    destruct (extract_item cfg ids item) as [ids1 part]. cbn [fst snd].
    destruct (extract_parts cfg ids1 rest); reflexivity.
  - intros item Hitem. exact (extract_item_plain cfg ids item Hitem).
  - intros Hall. cbn [extract_body].
    rewrite (extract_parts_plain cfg items ids Hall). reflexivity.
  - intros items1 items2. rewrite extract_parts_app. reflexivity.
  - intros nested. split; reflexivity.
Qed.

(** A string, [None] and a padded string: two fragments, a blank line
    between them. *)
Lemma sequence_parts_joined_witness :
  extract_body plain no_ids (JList [JStr "a"; JNull; JStr " b "])
  = (no_ids, "a" ++ blank_line ++ "b").
Proof.
  destruct (sequence_parts_joined plain no_ids [JStr "a"; JNull; JStr " b "])
    as (_ & _ & _ & _ & _ & Hplain & _).
  rewrite Hplain; [reflexivity | repeat constructor].
Defined.

(** C7 as the claim has it fails: the nested pair of "a" and "b" comes
    out with one newline between them, where a blank line is claimed. *)
Lemma nested_sequence_one_newline :
  (extract_body plain no_ids nested_pair).2 = "a" ++ PyStr.nl ++ "b"
  ∧ (extract_body plain no_ids nested_pair).2 ≠ PyStr.join blank_line ["a"; "b"].
Proof. split; [reflexivity | discriminate]. Qed.

(** C8, as amended.  On a mapping [coerce_text] first returns the value
    under [text] when that is a string; only then the normalized
    [content] when the key is there, and the pretty-printed mapping when
    it is not.  A mapping whose type tag is none of the four known ones
    contributes this text, trimmed, as its part, and as a whole content
    value it is the body. *)
Theorem untagged_mapping_rule cfg ids fields :
  recognized_tag (Py.get "type" fields) = false →
  coerce_text (JObj fields) = mapping_rule fields
  ∧ extract_item cfg ids (JObj fields) = (ids, fragment (PyStr.strip (mapping_rule fields)))
  ∧ extract_body cfg ids (JObj fields) = (ids, PyStr.strip (mapping_rule fields)).
Proof.
  intros Htag. rewrite <- coerce_text_dict. split; [reflexivity|]. split; [|reflexivity].
  unfold recognized_tag in Htag.
  apply orb_false_elim in Htag as [Htag H4].
  apply orb_false_elim in Htag as [Htag H3].
  apply orb_false_elim in Htag as [H1 H2].
  unfold extract_item. rewrite H1, H2, H3, H4. reflexivity.
Qed.

Lemma untagged_mapping_rule_witness :
  recognized_tag (Py.get "type" note_mapping) = false
  ∧ extract_body plain no_ids (JObj note_mapping) = (no_ids, "x" ++ PyStr.nl ++ "y").
Proof.
  split; [reflexivity|].
  exact (proj2 (proj2 (untagged_mapping_rule plain no_ids note_mapping eq_refl))).
Defined.

(** C8 as the claim has it fails: a mapping with no type tag, a string
    under [text] and a [content] key is normalized to the text, not to
    the content. *)
Lemma text_key_precedes_content :
  recognized_tag (Py.get "type" text_and_content) = false
  ∧ coerce_text (JObj text_and_content) = "hi"
  ∧ content_or_dump text_and_content = "x"
  ∧ (extract_body plain no_ids (JObj text_and_content)).2
    ≠ PyStr.strip (content_or_dump text_and_content).
Proof. repeat split; discriminate. Qed.

End NormalizerClaims.

(** ** Tool correlator *)

Section Correlator.

Implicit Types (cfg : config) (ids : correlator) (fields : list (string * json)).

Lemma add_excluded_mono v ids : excluded_of ids ⊆ excluded_of (add_excluded v ids).
Proof. unfold add_excluded. destruct (Py.nonempty_str v); cbn; set_solver. Qed.

Lemma add_included_excluded v ids : excluded_of (add_included v ids) = excluded_of ids.
Proof. unfold add_included. destruct (Py.nonempty_str v); reflexivity. Qed.

(** The excluded set only grows. *)
Lemma extract_item_mono cfg ids item :
  excluded_of ids ⊆ excluded_of (extract_item cfg ids item).1.
Proof.
  unfold extract_item. destruct item; try reflexivity.
  repeat match goal with
         | |- context [if ?b then _ else _] => destruct b
         end; cbn [fst]; try reflexivity.
  - apply add_excluded_mono.
  - rewrite add_included_excluded. reflexivity.
Qed.

Lemma extract_parts_mono cfg items : ∀ ids,
  excluded_of ids ⊆ excluded_of (extract_parts cfg ids items).1.
Proof.
  induction items as [|item rest IH]; intros ids; cbn [extract_parts]; [reflexivity|].
  pose proof (extract_item_mono cfg ids item) as H1.
  destruct (extract_item cfg ids item) as [ids1 part]. specialize (IH ids1).
  destruct (extract_parts cfg ids1 rest) as [ids2 parts]. cbn in *. set_solver.
Qed.

Lemma extract_body_mono cfg ids content :
  excluded_of ids ⊆ excluded_of (extract_body cfg ids content).1.
Proof.
  destruct content; try reflexivity. cbn [extract_body].
  pose proof (extract_parts_mono cfg items ids).
  destruct (extract_parts cfg ids items); assumption.
Qed.

(** What a returning [process_event] did: the event is a mapping with a
    hashable type; behind the gate the role normalized and the state is
    that of [see_event], [see_message], [extract_body] and, for a
    non-empty body, [emit_turn]. *)
Lemma process_event_returns cfg st event st' :
  process_event cfg st event = Returns st' →
  ∃ fields, event = JObj fields ∧ stderr st' = stderr st ∧
    match turn_message fields with
    | Some (fallback, message) =>
        ∃ role, normalize_role (Py.get "role" message) fallback = inr role ∧
          let eb := extract_body cfg (ids st) (Py.get "content" message) in
          let r2 := see_message message (see_event fields (parsed st)) in
          ids st' = eb.1 ∧
          parsed st' =
            if PyStr.truthy eb.2
            then emit_turn role
                   (Py.or_else (Py.get "timestamp" fields) (Py.get "timestamp" message))
                   eb.2 r2
            else r2
    | None => ids st' = ids st ∧ parsed st' = see_event fields (parsed st)
    end.
Proof.
  destruct event; try discriminate. cbn [process_event]. intros H.
  exists fields. split; [reflexivity|].
  unfold turn_message.
  destruct (negb (Py.hashable (Py.get "type" fields))); [discriminate|].
  destruct (turn_type (Py.get "type" fields)) as [fallback|].
  - destruct (Py.get "message" fields) as [| | | | | |message];
      try (inversion H; subst; cbn; auto; fail).
    destruct (normalize_role (Py.get "role" message) fallback) as [e|role]; [discriminate|].
    destruct (extract_body cfg (ids st) (Py.get "content" message)) as [ids' body].
    cbn [fst snd].
    destruct (PyStr.truthy body); inversion H; subst; cbn; eauto.
  - destruct (Py.get "message" fields); inversion H; subst; cbn; auto.
Qed.

Lemma process_event_mono cfg st event st' :
  process_event cfg st event = Returns st' →
  excluded_of (ids st) ⊆ excluded_of (ids st').
Proof.
  intros H. apply process_event_returns in H as (fields & _ & _ & H).
  destruct (turn_message fields) as [[fallback message]|].
  - destruct H as (role & _ & -> & _). apply extract_body_mono.
  - destruct H as [-> _]. reflexivity.
Qed.

Lemma run_mono cfg lines : ∀ n st st',
  run cfg n st lines = Returns st' →
  excluded_of (ids st) ⊆ excluded_of (ids st').
Proof.
  induction lines as [|l rest IH]; intros n st st' H; cbn [run] in H.
  - inversion H; subst. reflexivity.
  - destruct (process_line cfg n st l) as [st1|] eqn:E; [|discriminate].
    apply IH in H. etrans; [|exact H].
    destruct l; cbn [process_line] in E.
    + inversion E; subst. reflexivity.
    + inversion E; subst. reflexivity.
    + eapply process_event_mono; eassumption.
Qed.

(** A [tool_result] whose identifier is in the excluded set appends
    nothing and leaves the sets alone. *)
Lemma excluded_result_dropped cfg ids result tid :
  Py.get "type" result = JStr "tool_result" →
  Py.get "tool_use_id" result = JStr tid →
  tid ∈ excluded_of ids →
  extract_item cfg ids (JObj result) = (ids, None).
Proof.
  intros Htype Hid Hin. unfold extract_item. rewrite Htype. cbn.
  destruct (include_tools cfg); [|reflexivity].
  unfold result_excluded. rewrite Hid. cbn [str_in].
  rewrite bool_decide_eq_true_2 by assumption. reflexivity.
Qed.

Lemma excluded_result_no_part cfg result tid before after : ∀ ids,
  Py.get "type" result = JStr "tool_result" →
  Py.get "tool_use_id" result = JStr tid →
  tid ∈ excluded_of ids →
  extract_parts cfg ids (before ++ JObj result :: after)
  = extract_parts cfg ids (before ++ after).
Proof.
  intros ids Htype Hid Hin.
  rewrite !extract_parts_app.
  assert (tid ∈ excluded_of (extract_parts cfg ids before).1) as Hin'
    by (eapply extract_parts_mono; eassumption).
  cbn [extract_parts].
  rewrite (excluded_result_dropped _ _ _ _ Htype Hid Hin').
  destruct (extract_parts cfg (extract_parts cfg ids before).1 after); reflexivity.
Qed.

Lemma excluded_use_recorded cfg ids use tid :
  include_tools cfg = true →
  Py.get "type" use = JStr "tool_use" →
  Py.get "id" use = JStr tid →
  tid ≠ EmptyString →
  name_excluded cfg (tool_name use) = true →
  extract_item cfg ids (JObj use) = (add_excluded (JStr tid) ids, None)
  ∧ tid ∈ excluded_of (add_excluded (JStr tid) ids).
Proof.
  intros Htools Htype Hid Hne Hname.
  unfold extract_item. rewrite Htype. cbn. rewrite Htools, Hname, Hid.
  split; [reflexivity|].
  unfold add_excluded. destruct tid; [congruence|]. cbn. set_solver.
Qed.

Lemma is_tag_true item_type tag : is_tag item_type tag = true → item_type = JStr tag.
Proof.
  destruct item_type; try discriminate. cbn. intros H.
  apply String.eqb_eq in H. congruence.
Qed.

Lemma nonempty_str_some v i : Py.nonempty_str v = Some i → v = JStr i.
Proof.
  destruct v; try discriminate. cbn. destruct (PyStr.truthy s); congruence.
Qed.

(** Only a [tool_use] item records an identifier, and only its own. *)
Lemma extract_item_records cfg ids item i :
  i ∈ excluded_of (extract_item cfg ids item).1
      ∪ included_of (extract_item cfg ids item).1 →
  i ∈ excluded_of ids ∪ included_of ids
  ∨ ∃ fields, item = JObj fields
              ∧ Py.get "type" fields = JStr "tool_use"
              ∧ Py.get "id" fields = JStr i.
Proof.
  unfold extract_item. destruct item; try (cbn; auto; fail).
  destruct (is_tag (Py.get "type" fields) "text"); [cbn; auto|].
  destruct (is_tag (Py.get "type" fields) "thinking"); [cbn; auto|].
  destruct (is_tag (Py.get "type" fields) "tool_use") eqn:Htag.
  - apply is_tag_true in Htag.
    destruct (include_tools cfg); [|cbn; auto].
    destruct (name_excluded cfg (tool_name fields)); cbn [fst];
      unfold add_excluded, add_included;
      destruct (Py.nonempty_str (Py.get "id" fields)) as [j|] eqn:Hid;
      cbn; auto; intros Hin;
      apply nonempty_str_some in Hid;
      (destruct (decide (i = j)) as [->|Hne]; [right; eauto|left; set_solver]).
  - destruct (is_tag (Py.get "type" fields) "tool_result"); [|cbn; auto].
    destruct (include_tools cfg); [|cbn; auto].
    destruct (result_excluded cfg ids (Py.get "tool_use_id" fields)); cbn; auto.
Qed.

(** C2.  With tool inclusion enabled, a [tool_use] item of a message's
    content whose normalized name the filters exclude, and whose
    identifier is a non-empty string, appends nothing and puts the
    identifier in the excluded set.  The identifier is still there after
    the event and after any lines that follow, and there a [tool_result]
    item that references it changes neither the body nor the identifier
    sets: the content with the item and the content without it extract
    alike.  The same holds for a result later in the content that holds
    the [tool_use]. *)
Theorem excluded_use_drops_later_results
    cfg st0 fields fallback message before_use use after_use tid st1 n lines st2 result :
  include_tools cfg = true →
  turn_message fields = Some (fallback, message) →
  Py.get "content" message = JList (before_use ++ JObj use :: after_use) →
  Py.get "type" use = JStr "tool_use" →
  Py.get "id" use = JStr tid →
  tid ≠ EmptyString →
  name_excluded cfg (tool_name use) = true →
  process_event cfg st0 (JObj fields) = Returns st1 →
  run cfg n st1 lines = Returns st2 →
  Py.get "type" result = JStr "tool_result" →
  Py.get "tool_use_id" result = JStr tid →
  (∀ ids, extract_item cfg ids (JObj use) = (add_excluded (JStr tid) ids, None))
  ∧ tid ∈ excluded_of (ids st1)
  ∧ tid ∈ excluded_of (ids st2)
  ∧ (∀ before after,
        extract_body cfg (ids st2) (JList (before ++ JObj result :: after))
        = extract_body cfg (ids st2) (JList (before ++ after)))
  ∧ (∀ ids between after,
        extract_body cfg ids
          (JList (before_use ++ JObj use :: between ++ JObj result :: after))
        = extract_body cfg ids (JList (before_use ++ JObj use :: between ++ after))).
Proof.
  intros Htools Hgate Hcontent Htype Hid Hne Hname Hev Hrun Hrtype Hrid.
  assert (∀ ids, tid ∈ excluded_of
            (extract_parts cfg ids (before_use ++ JObj use :: after_use)).1) as Hrec.
  { intros ids0. rewrite extract_parts_app. cbn [fst extract_parts].
    destruct (excluded_use_recorded cfg (extract_parts cfg ids0 before_use).1 use tid
                Htools Htype Hid Hne Hname) as [-> Hin].
    pose proof (extract_parts_mono cfg after_use
                  (add_excluded (JStr tid) (extract_parts cfg ids0 before_use).1)) as Hmono.
    destruct (extract_parts cfg _ after_use). cbn in *. set_solver. }
  assert (tid ∈ excluded_of (ids st1)) as H1.
  { apply process_event_returns in Hev as (fields' & Heq & _ & Hev).
    inversion Heq; subst fields'. rewrite Hgate in Hev.
    destruct Hev as (role & _ & -> & _). rewrite Hcontent. cbn [extract_body].
    specialize (Hrec (ids st0)).
    destruct (extract_parts cfg (ids st0) _); exact Hrec. }
  assert (tid ∈ excluded_of (ids st2)) as H2
    by (eapply run_mono; eassumption).
  split; [|split; [exact H1|split; [exact H2|split]]].
  - intros ids0. eapply excluded_use_recorded; eassumption.
  - intros before after. cbn [extract_body].
    rewrite (excluded_result_no_part cfg result tid before after (ids st2) Hrtype Hrid H2).
    reflexivity.
  - intros ids0 between after. cbn [extract_body].
    rewrite !extract_parts_app. cbn [extract_parts fst snd].
    destruct (excluded_use_recorded cfg (extract_parts cfg ids0 before_use).1 use tid
                Htools Htype Hid Hne Hname) as [-> Hin].
    rewrite (excluded_result_no_part cfg result tid between after _ Hrtype Hrid Hin).
    reflexivity.
Qed.

Lemma excluded_use_drops_later_results_witness :
  tid_of_read ∈ excluded_of (ids after_read_and_chat)
  ∧ extract_body deny_read (ids after_read_and_chat) (JList [JStr "ok"; JObj read_result])
    = extract_body deny_read (ids after_read_and_chat) (JList [JStr "ok"]).
Proof.
  pose proof (excluded_use_drops_later_results
                deny_read initial
                (message_event "assistant" "assistant" (JList [JObj read_use]))
                "assistant"
                [("role", JStr "assistant"); ("content", JList [JObj read_use])]
                [] read_use [] tid_of_read after_read 2
                [Parsed (JObj (message_event "user" "user" (JStr "hello")))]
                after_read_and_chat read_result
                eq_refl eq_refl eq_refl eq_refl eq_refl
                ltac:(discriminate) eq_refl eq_refl eq_refl eq_refl eq_refl)
    as (_ & _ & H2 & H3 & _).
  split; [exact H2 | exact (H3 [JStr "ok"] [])].
Defined.

(** C3.  A [tool_result] item whose identifier is in the excluded set
    appends nothing, whatever the configuration.  With tool inclusion
    enabled, one whose identifier is in neither set (no [tool_use]
    decision recorded it) appends nothing when the allow-list is not
    empty, and otherwise appends its fenced block (when its content is
    not blank).  The identifier sets stay as they are. *)
Theorem unrecorded_tool_result cfg ids fields :
  Py.get "type" fields = JStr "tool_result" →
  (str_in (Py.get "tool_use_id" fields) (excluded_of ids) = true →
     extract_item cfg ids (JObj fields) = (ids, None))
  ∧ (include_tools cfg = true →
     str_in (Py.get "tool_use_id" fields) (excluded_of ids) = false →
     str_in (Py.get "tool_use_id" fields) (included_of ids) = false →
     extract_item cfg ids (JObj fields)
     = (ids, if bool_decide (only_tools cfg ≠ ∅) then None else rendered_result fields)).
Proof.
  intros Htype. unfold extract_item. rewrite Htype. cbn.
  split.
  - intros Hin. destruct (include_tools cfg); [|reflexivity].
    unfold result_excluded. rewrite Hin. reflexivity.
  - intros -> Hex Hinc. unfold result_excluded. rewrite Hex, Hinc. cbn.
    destruct (bool_decide (only_tools cfg ≠ ∅)); reflexivity.
Qed.

Lemma unrecorded_tool_result_witness :
  extract_item deny_read (ids after_read) (JObj read_result) = (ids after_read, None)
  ∧ extract_item only_grep no_ids (JObj read_result) = (no_ids, None)
  ∧ extract_item all_tools no_ids (JObj read_result)
    = (no_ids, Some (fence "tool_result" "secret")).
Proof.
  split; [|split].
  - exact (proj1 (unrecorded_tool_result deny_read (ids after_read) read_result eq_refl)
             eq_refl).
  - exact (proj2 (unrecorded_tool_result only_grep no_ids read_result eq_refl)
             eq_refl eq_refl eq_refl).
  - exact (proj2 (unrecorded_tool_result all_tools no_ids read_result eq_refl)
             eq_refl eq_refl eq_refl).
Defined.

End Correlator.

(** ** Usage summation *)

Section Usage.

Implicit Types (counts : gmap string Z) (leaves : list (string * Z)).

Lemma json_nested_ind (P : json → Prop) :
  P JNull → (∀ b, P (JBool b)) → (∀ z, P (JInt z)) → (∀ r, P (JFloat r)) →
  (∀ s, P (JStr s)) →
  (∀ items, Forall P items → P (JList items)) →
  (∀ fields, Forall (fun kv => P (snd kv)) fields → P (JObj fields)) →
  ∀ v, P v.
Proof.
  intros HN HB HI HF HS HL HO. fix IH 1.
  intros [ | b | z | r | s | items | fields].
  - exact HN.
  - apply HB.
  - apply HI.
  - apply HF.
  - apply HS.
  - apply HL. induction items as [|item rest IHrest]; constructor;
      [apply IH | exact IHrest].
  - apply HO. induction fields as [|[k v] rest IHrest]; constructor;
      [apply IH | exact IHrest].
Qed.

Lemma dotted_snoc path key : dotted (path ++ [key]) = next_prefix (dotted path) key.
Proof. unfold dotted. rewrite fold_left_app. reflexivity. Qed.

Lemma fold_add_leaf_app leaves1 leaves2 counts :
  fold_left add_leaf (leaves1 ++ leaves2) counts
  = fold_left add_leaf leaves2 (fold_left add_leaf leaves1 counts).
Proof. apply fold_left_app. Qed.

(** [add_usage] adds the integer leaves one by one, each under the
    dotted key of its path. *)
Lemma add_usage_leaves value : ∀ path counts,
  add_usage (dotted path) value counts
  = fold_left add_leaf
      (map (fun leaf => (dotted (fst leaf), snd leaf)) (int_leaves path value)) counts.
Proof.
  induction value as [ | b | z | r | s | items _ | fields IH] using json_nested_ind;
    intros path counts; try reflexivity.
  cbn [add_usage int_leaves]. revert counts.
  induction IH as [|[k v] rest Hv _ IHrest]; intros counts; [reflexivity|].
  cbn [fold_left flat_map fst snd]. rewrite map_app, fold_add_leaf_app.
  rewrite <- dotted_snoc, Hv. apply IHrest.
Qed.

Lemma sum_at_absent key leaves : has_key key leaves = false → sum_at key leaves = 0%Z.
Proof.
  induction leaves as [|[k z] rest IH]; [reflexivity|].
  cbn [has_key existsb sum_at fold_right fst snd].
  destruct (String.eqb k key); [discriminate|exact IH].
Qed.

Lemma fold_add_leaf_lookup key leaves : ∀ counts,
  fold_left add_leaf leaves counts !! key
  = if has_key key leaves
    then Some (default 0 (counts !! key) + sum_at key leaves)%Z
    else counts !! key.
Proof.
  induction leaves as [|[k z] rest IH]; intros counts; [reflexivity|].
  cbn [fold_left has_key existsb sum_at fold_right fst snd]. rewrite IH.
  fold (has_key key rest). fold (sum_at key rest). unfold add_leaf. cbn [fst snd].
  destruct (String.eqb_spec k key) as [->|Hne].
  - rewrite lookup_insert_eq. cbn.
    destruct (has_key key rest) eqn:Hrest; f_equal; [lia|].
    rewrite (sum_at_absent _ _ Hrest). lia.
  - rewrite lookup_insert_ne by assumption. reflexivity.
Qed.

Lemma has_key_perm key leaves leaves' :
  Permutation leaves leaves' → has_key key leaves = has_key key leaves'.
Proof.
  unfold has_key.
  induction 1 as [|x l l' _ IH|x y l|l l' l'' _ IH1 _ IH2]; cbn [existsb].
  - reflexivity.
  - rewrite IH. reflexivity.
  - destruct (String.eqb x.1 key), (String.eqb y.1 key); reflexivity.
  - congruence.
Qed.

Lemma sum_at_perm key leaves leaves' :
  Permutation leaves leaves' → sum_at key leaves = sum_at key leaves'.
Proof.
  unfold sum_at.
  induction 1 as [|x l l' _ IH|x y l|l l' l'' _ IH1 _ IH2]; cbn [fold_right].
  - reflexivity.
  - rewrite IH. reflexivity.
  - destruct (String.eqb x.1 key), (String.eqb y.1 key); lia.
  - congruence.
Qed.

Lemma fold_add_leaf_perm leaves leaves' counts :
  Permutation leaves leaves' →
  fold_left add_leaf leaves counts = fold_left add_leaf leaves' counts.
Proof.
  intros HP. apply map_eq. intros key. rewrite !fold_add_leaf_lookup.
  rewrite (has_key_perm key _ _ HP), (sum_at_perm key _ _ HP). reflexivity.
Qed.

End Usage.

(** ** Event stream parser: one line, one run *)

Section Run.

Implicit Types (cfg : config) (st : state) (lines : list line).

Lemma run_app cfg lines1 lines2 : ∀ n st,
  run cfg n st (lines1 ++ lines2)
  = match run cfg n st lines1 with
    | Returns st1 => run cfg (n + length lines1) st1 lines2
    | Raises e printed => Raises e printed
    end.
Proof.
  induction lines1 as [|l rest IH]; intros n st; cbn [run app length].
  - rewrite Nat.add_0_r. reflexivity.
  - destruct (process_line cfg n st l) as [st1|e printed]; [|reflexivity].
    rewrite IH. replace (S n + length rest) with (n + S (length rest)) by lia.
    reflexivity.
Qed.

(** The three ways a line returns. *)
Lemma process_line_returns cfg n st l st' :
  process_line cfg n st l = Returns st' →
  (l = Blank ∧ st' = st)
  ∨ (∃ exc, l = Invalid exc
       ∧ st' = MkState (parsed st) (ids st) (stderr st ++ [diagnostic n exc]))
  ∨ (∃ fields, l = Parsed (JObj fields)
       ∧ process_event cfg st (JObj fields) = Returns st').
Proof.
  destruct l as [|exc|event]; cbn [process_line]; intros H.
  - left. inversion H. auto.
  - right. left. exists exc. inversion H. auto.
  - right. right. destruct event; try discriminate. eauto.
Qed.

(** Whether a line raises does not depend on the state. *)
Lemma process_line_raises cfg n st l :
  match process_line cfg n st l with
  | Returns _ => line_raises l = None
  | Raises e printed => line_raises l = Some e ∧ printed = stderr st
  end.
Proof.
  destruct l as [|exc|event]; cbn [process_line line_raises]; try reflexivity.
  destruct event; cbn [process_event]; auto.
  unfold turn_message.
  destruct (negb (Py.hashable (Py.get "type" fields))); [auto|].
  destruct (turn_type (Py.get "type" fields)) as [fallback|].
  - destruct (Py.get "message" fields) as [| | | | | |message]; try reflexivity.
    destruct (normalize_role (Py.get "role" message) fallback); [auto|].
    destruct (extract_body cfg (ids st) (Py.get "content" message)) as [ids' body].
    destruct (PyStr.truthy body); reflexivity.
  - destruct (Py.get "message" fields); reflexivity.
Qed.

(** What a returning event did to each part of the state. *)
Lemma event_step cfg st fields st' :
  process_event cfg st (JObj fields) = Returns st' →
  let r := parsed st in
  let r' := parsed st' in
  stderr st' = stderr st
  ∧ ids st' = ids_after cfg (ids st) (Parsed (JObj fields))
  ∧ session_ids r' = collect (Py.get "sessionId" fields) (session_ids r)
  ∧ versions r' = collect (Py.get "version" fields) (versions r)
  ∧ cwd_values r' = collect (Py.get "cwd" fields) (cwd_values r)
  ∧ branches r' = collect (Py.get "gitBranch" fields) (branches r)
  ∧ models r'
    = match message_model (Parsed (JObj fields)) with
      | Some m => {[ m ]} ∪ models r
      | None => models r
      end
  ∧ usage_counts r'
    = match line_usage (Parsed (JObj fields)) with
      | Some usage => add_usage EmptyString (JObj usage) (usage_counts r)
      | None => usage_counts r
      end
  ∧ usage_records r'
    = match line_usage (Parsed (JObj fields)) with
      | Some _ => S (usage_records r)
      | None => usage_records r
      end
  ∧ if emits cfg (ids st) fields
    then ∃ t, turns r' = (turns r ++ [t])%list
              ∧ index t = length (turns r) + 1
              ∧ body t = event_body cfg (ids st) fields
              ∧ role_counts r'
                = <[ role t := default 0 (role_counts r !! role t) + 1 ]> (role_counts r)
    else turns r' = turns r ∧ role_counts r' = role_counts r.
Proof.
  intros H. apply process_event_returns in H as (fields' & Heq & Herr & H).
  inversion Heq; subst fields'. clear Heq.
  cbn zeta. unfold emits, event_body, ids_after, message_model, line_usage.
  destruct (turn_message fields) as [[fallback message]|].
  - destruct H as (role & _ & Hids & Hparsed). cbn zeta in Hparsed.
    split; [exact Herr|]. split; [exact Hids|].
    destruct (PyStr.truthy (extract_body cfg (ids st) (Py.get "content" message)).2);
      rewrite Hparsed; cbn;
      (repeat split; try reflexivity;
       try (unfold collect; destruct (Py.nonempty_str _); reflexivity);
       try (destruct (Py.get "usage" message); reflexivity)).
    eexists. cbn. repeat split; reflexivity.
  - destruct H as [Hids Hparsed]. rewrite Hparsed. cbn.
    repeat split; try reflexivity; try assumption.
Qed.

(** The same for a returning line: a blank or invalid line touches
    nothing but the diagnostics. *)
Lemma line_step cfg n st l st' :
  process_line cfg n st l = Returns st' →
  let r := parsed st in
  let r' := parsed st' in
  ids st' = ids_after cfg (ids st) l
  ∧ (∀ key (proj : ParseResult → gset string),
       (key, proj) ∈ [("sessionId", session_ids); ("version", versions);
                       ("cwd", cwd_values); ("gitBranch", branches)] →
       proj r' = match event_field key l with
                 | Some x => {[ x ]} ∪ proj r
                 | None => proj r
                 end)
  ∧ models r' = match message_model l with
                | Some m => {[ m ]} ∪ models r
                | None => models r
                end
  ∧ usage_counts r'
    = match line_usage l with
      | Some usage => add_usage EmptyString (JObj usage) (usage_counts r)
      | None => usage_counts r
      end
  ∧ usage_records r'
    = match line_usage l with
      | Some _ => S (usage_records r)
      | None => usage_records r
      end
  ∧ if line_emits cfg (ids st) l
    then ∃ t, turns r' = (turns r ++ [t])%list
              ∧ index t = length (turns r) + 1
              ∧ PyStr.truthy (body t) = true
              ∧ role_counts r'
                = <[ role t := default 0 (role_counts r !! role t) + 1 ]> (role_counts r)
    else turns r' = turns r ∧ role_counts r' = role_counts r.
Proof.
  intros H. apply process_line_returns in H
    as [[-> ->] | [(exc & -> & ->) | (fields & -> & H)]];
    try (cbn; repeat split; try reflexivity;
         intros key proj _; reflexivity).
  pose proof (event_step _ _ _ _ H)
    as (_ & Hids & Hs & Hv & Hc & Hb & Hm & Hu & Hn & Ht).
  cbn zeta. split; [exact Hids|]. split.
  { intros key proj Hin. cbn [event_field]. unfold collect in *.
    repeat (apply elem_of_cons in Hin as [Hin|Hin];
            [inversion Hin; subst; assumption|]).
    apply elem_of_nil in Hin. destruct Hin. }
  split; [exact Hm|]. split; [exact Hu|]. split; [exact Hn|].
  cbn [line_emits]. destruct (emits cfg (ids st) fields) eqn:He; [|exact Ht].
  destruct Ht as (t & Ht & Hi & Hbody & Hr). exists t.
  repeat split; try assumption. rewrite Hbody. exact He.
Qed.

Lemma run_returns_ind cfg (P : state → list line → state → Prop) :
  (∀ st, P st [] st) →
  (∀ n st l st1 rest st',
      process_line cfg n st l = Returns st1 →
      P st1 rest st' → P st (l :: rest) st') →
  ∀ lines n st st', run cfg n st lines = Returns st' → P st lines st'.
Proof.
  intros Hnil Hcons. induction lines as [|l rest IH]; intros n st st' H; cbn [run] in H.
  - inversion H; subst. apply Hnil.
  - destruct (process_line cfg n st l) as [st1|] eqn:E; [|discriminate].
    eapply Hcons; [exact E|]. eapply IH. exact H.
Qed.

(** The turns of a run that returns: as many more as there are emitting
    events. *)
Lemma run_turn_count cfg lines n st st' :
  run cfg n st lines = Returns st' →
  length (turns (parsed st'))
  = length (turns (parsed st)) + emitting_events cfg (ids st) lines.
Proof.
  revert lines n st st'. apply run_returns_ind.
  - intros st. cbn. lia.
  - intros n st l st1 rest st' Hl IH. rewrite IH. cbn [emitting_events].
    pose proof (line_step _ _ _ _ _ Hl) as (Hids & _ & _ & _ & _ & Ht).
    rewrite Hids.
    destruct (line_emits cfg (ids st) l).
    + destruct Ht as (t & -> & _). rewrite length_app. cbn. lia.
    + destruct Ht as [-> _]. lia.
Qed.

(** Metadata sets gather what the lines carry. *)
Lemma run_collects cfg (proj : ParseResult → gset string) (f : line → option string) :
  (∀ n st l st', process_line cfg n st l = Returns st' →
     proj (parsed st') = match f l with
                         | Some x => {[ x ]} ∪ proj (parsed st)
                         | None => proj (parsed st)
                         end) →
  ∀ lines n st st', run cfg n st lines = Returns st' →
    proj (parsed st') = strings_of f lines ∪ proj (parsed st).
Proof.
  intros Hstep. apply run_returns_ind.
  - intros st. unfold strings_of. cbn. set_solver.
  - intros n st l st1 rest st' Hl IH. rewrite IH, (Hstep _ _ _ _ Hl).
    unfold strings_of. cbn [omap list_omap].
    destruct (f l); cbn [list_to_set]; set_solver.
Qed.

End Run.

(** ** Turn emission, indices and role counters *)

Section Turns.

Implicit Types (cfg : config) (st : state) (lines : list line).

(** C1.  A returning event appends exactly one turn, with a non-empty
    body, when its type is a turn type, its message is a mapping and the
    body extracted from the content is not empty ([emits]); otherwise it
    appends none.  So the turns of a run that returns are as many as
    the events that emit, the identifier sets being those each event
    meets. *)
Theorem turn_emission cfg :
  (∀ st fields st',
      process_event cfg st (JObj fields) = Returns st' →
      if emits cfg (ids st) fields
      then ∃ t, turns (parsed st') = (turns (parsed st) ++ [t])%list
                ∧ body t = event_body cfg (ids st) fields
                ∧ PyStr.truthy (body t) = true
      else turns (parsed st') = turns (parsed st))
  ∧ (∀ lines st,
        iter_turns cfg lines = Returns st →
        length (turns (parsed st)) = emitting_events cfg no_ids lines).
Proof.
  split.
  - intros st fields st' H.
    pose proof (event_step _ _ _ _ H) as (_ & _ & _ & _ & _ & _ & _ & _ & _ & Ht).
    destruct (emits cfg (ids st) fields) eqn:He.
    + destruct Ht as (t & Ht & _ & Hbody & _). exists t.
      repeat split; try assumption. rewrite Hbody. exact He.
    + apply Ht.
  - intros lines st H. apply run_turn_count in H. exact H.
Qed.

Lemma turn_emission_witness :
  length (turns (parsed three_line_state)) = 2
  ∧ emitting_events plain no_ids three_lines = 2.
Proof.
  pose proof (proj2 (turn_emission plain) three_lines three_line_state eq_refl) as H.
  split; [exact H | reflexivity].
Defined.

Lemma total_bump (counts : gmap string nat) (r : string) :
  total (<[ r := default 0 (counts !! r) + 1 ]> counts) = total counts + 1.
Proof.
  unfold total.
  assert (∀ (m : gmap string nat) j1 j2 (z1 z2 y : nat),
             j1 ≠ j2 → m !! j1 = Some z1 → m !! j2 = Some z2 →
             z1 + (z2 + y) = z2 + (z1 + y)) as Hcomm by (intros; lia).
  destruct (counts !! r) as [n|] eqn:E; cbn [default].
  - rewrite <- insert_delete_eq.
    rewrite map_fold_insert_L; [|apply Hcomm|apply lookup_delete_eq].
    rewrite (map_fold_delete_L _ _ r n counts); [unfold id; lia|apply Hcomm|exact E].
  - rewrite map_fold_insert_L; [lia|apply Hcomm|exact E].
Qed.

Lemma well_counted_run cfg lines n st st' :
  run cfg n st lines = Returns st' →
  well_counted (parsed st) → well_counted (parsed st').
Proof.
  revert lines n st st'.
  apply (run_returns_ind cfg
           (fun st _ st' => well_counted (parsed st) → well_counted (parsed st')));
    [auto|].
  intros n st l st1 rest st' Hl IH Hwc. apply IH. clear IH.
  pose proof (line_step _ _ _ _ _ Hl) as (_ & _ & _ & _ & _ & Ht).
  destruct (line_emits cfg (ids st) l).
  - destruct Ht as (t & Ht & Hi & _ & Hr).
    destruct Hwc as (Hidx & Htot & Hrole). unfold well_counted.
    rewrite Ht, Hr. split; [|split].
    + intros i t0 Hlook. apply lookup_app_Some in Hlook as [Hlook|[Hge Hlook]].
      * eauto.
      * apply list_lookup_singleton_Some in Hlook as [Hz ->]. lia.
    + rewrite total_bump, length_app. cbn. lia.
    + intros name. unfold turns_with_role. rewrite List.filter_app, length_app.
      fold (turns_with_role name (turns (parsed st))). rewrite <- Hrole. cbn.
      destruct (String.eqb_spec (role t) name) as [->|Hne].
      * rewrite lookup_insert_eq. cbn. rewrite Hrole. reflexivity.
      * rewrite lookup_insert_ne by assumption. cbn. lia.
  - destruct Ht as [Ht Hr]. unfold well_counted. rewrite Ht, Hr. exact Hwc.
Qed.

(** C10.  After a parse that returns, the turn at position [i] has index
    [i + 1], the role counters add up to the number of turns, and the
    counter of each role is the number of turns with that role. *)
Theorem turn_index_and_role_counts cfg lines st :
  iter_turns cfg lines = Returns st →
  (∀ i t, turns (parsed st) !! i = Some t → index t = i + 1)
  ∧ total (role_counts (parsed st)) = length (turns (parsed st))
  ∧ (∀ name,
        default 0 (role_counts (parsed st) !! name)
        = turns_with_role name (turns (parsed st))).
Proof.
  intros H. apply (well_counted_run _ _ _ _ _ H).
  split; [|split].
  - intros i t Hlook. cbn in Hlook. rewrite lookup_nil in Hlook. discriminate.
  - reflexivity.
  - intros name. reflexivity.
Qed.

Lemma turn_index_and_role_counts_witness :
  total (role_counts (parsed three_line_state)) = 2
  ∧ map index (turns (parsed three_line_state)) = [1; 2].
Proof.
  pose proof (turn_index_and_role_counts plain three_lines three_line_state eq_refl)
    as (_ & Htotal & _).
  split; [exact Htotal | reflexivity].
Defined.

End Turns.

(** ** Metadata collection *)

Section Metadata.

Implicit Types (cfg : config) (st : state) (lines : list line).

(** C6, as amended.  After a parse that returns, the session, version,
    directory and branch sets hold exactly the non-empty strings the
    events carry under [sessionId], [version], [cwd] and [gitBranch],
    whatever the type of the event and whatever its content.  The model
    set holds the non-empty models of the messages behind the gate only:
    the event is of type user or assistant and its message is a mapping;
    there too the content plays no part. *)
Theorem metadata_collected cfg lines st :
  iter_turns cfg lines = Returns st →
  session_ids (parsed st) = strings_of (event_field "sessionId") lines
  ∧ versions (parsed st) = strings_of (event_field "version") lines
  ∧ cwd_values (parsed st) = strings_of (event_field "cwd") lines
  ∧ branches (parsed st) = strings_of (event_field "gitBranch") lines
  ∧ models (parsed st) = strings_of message_model lines.
Proof.
  intros H.
  assert (∀ key proj,
             (key, proj) ∈ [("sessionId", session_ids); ("version", versions);
                             ("cwd", cwd_values); ("gitBranch", branches)] →
             proj (parsed st)
             = strings_of (event_field key) lines ∪ proj (parsed initial)) as Hfield.
  { intros key proj Hin.
    apply (run_collects cfg proj (event_field key)) with (n := 1); [|exact H].
    intros n st0 l st1 Hl.
    exact (proj1 (proj2 (line_step cfg n st0 l st1 Hl)) key proj Hin). }
  repeat split.
  - rewrite (Hfield "sessionId" session_ids) by set_solver. apply union_empty_r_L.
  - rewrite (Hfield "version" versions) by set_solver. apply union_empty_r_L.
  - rewrite (Hfield "cwd" cwd_values) by set_solver. apply union_empty_r_L.
  - rewrite (Hfield "gitBranch" branches) by set_solver. apply union_empty_r_L.
  - rewrite (run_collects cfg models message_model) with (n := 1) (st := initial)
                                                          (st' := st) (lines := lines).
    + apply union_empty_r_L.
    + intros n st0 l st1 Hl.
      exact (proj1 (proj2 (proj2 (line_step cfg n st0 l st1 Hl)))).
    + exact H.
Qed.

Lemma metadata_collected_witness :
  cwd_values (parsed silent_state) = {[ "/work" ]}
  ∧ models (parsed silent_state) = {[ "claude-y" ]}
  ∧ turns (parsed silent_state) = [].
Proof.
  pose proof (metadata_collected plain [silent_line] silent_state eq_refl)
    as (_ & _ & Hcwd & _ & Hmodels).
  split; [|split].
  - rewrite Hcwd. reflexivity.
  - rewrite Hmodels. reflexivity.
  - reflexivity.
Defined.

(** C6 as the claim has it fails: an event of type system whose message
    names a model leaves the model set empty, while its session is
    collected. *)
Lemma model_behind_type_gate :
  iter_turns plain [system_line] = Returns system_state
  ∧ any_message_model system_line = Some "claude-x"
  ∧ "s1" ∈ session_ids (parsed system_state)
  ∧ "claude-x" ∉ models (parsed system_state).
Proof.
  split; [reflexivity|]. split; [reflexivity|]. split.
  - apply (bool_decide_eq_true_1 ("s1" ∈ session_ids (parsed system_state))).
    reflexivity.
  - apply (bool_decide_eq_false_1 ("claude-x" ∈ models (parsed system_state))).
    reflexivity.
Qed.

End Metadata.

(** ** Lines that do not decode *)

Section Diagnostics.

Implicit Types (cfg : config) (st : state) (lines : list line).

(** Neither the line number nor what was printed decides what a line
    does to the result and the identifier sets. *)
Lemma process_line_same_data cfg n1 n2 r i printed1 printed2 l :
  match process_line cfg n1 (MkState r i printed1) l,
        process_line cfg n2 (MkState r i printed2) l with
  | Returns a, Returns b => parsed a = parsed b ∧ ids a = ids b
  | Raises e1 _, Raises e2 _ => e1 = e2
  | _, _ => False
  end.
Proof.
  destruct l as [|exc|event]; cbn [process_line]; auto.
  unfold process_event. cbn [parsed ids stderr].
  repeat case_match; simplify_eq; cbn; auto.
Qed.

Lemma run_same_data cfg lines : ∀ n1 n2 st1 st2,
  parsed st1 = parsed st2 → ids st1 = ids st2 →
  fate (run cfg n1 st1 lines) = fate (run cfg n2 st2 lines).
Proof.
  induction lines as [|l rest IH]; intros n1 n2 [r1 i1 p1] [r2 i2 p2] Hr Hi;
    cbn in Hr, Hi; subst; cbn [run].
  - reflexivity.
  - pose proof (process_line_same_data cfg n1 n2 r2 i2 p1 p2 l) as H.
    destruct (process_line cfg n1 (MkState r2 i2 p1) l) as [a|e1 q1],
             (process_line cfg n2 (MkState r2 i2 p2) l) as [b|e2 q2];
      try contradiction.
    + destruct H. apply IH; assumption.
    + cbn. congruence.
Qed.

(** What is printed stays printed. *)
Lemma run_keeps_printed cfg lines : ∀ n st,
  stderr st `prefix_of` printed_of (run cfg n st lines).
Proof.
  induction lines as [|l rest IH]; intros n st; cbn [run]; [reflexivity|].
  pose proof (process_line_raises cfg n st l) as Hr.
  destruct (process_line cfg n st l) as [st1|e printed] eqn:E.
  - etrans; [|apply IH].
    apply process_line_returns in E
      as [[_ ->] | [(exc & _ & ->) | (fields & _ & E)]].
    + reflexivity.
    + cbn. apply prefix_app_r. reflexivity.
    + apply event_step in E as (-> & _). reflexivity.
  - destruct Hr as [_ ->]. reflexivity.
Qed.

(** C5.  When the run reaches a line that does not decode, the line
    returns a state with the same result and identifier sets and one
    more diagnostic, which names the line by its number counted from 1;
    the diagnostic is among what the whole run prints; and the run over
    the whole stream ends as the run over the stream without the line:
    the same result, turns included and in order, or the same
    exception. *)
Theorem invalid_line_skipped cfg before exc after st1 :
  run cfg 1 initial before = Returns st1 →
  process_line cfg (S (length before)) st1 (Invalid exc)
  = Returns (MkState (parsed st1) (ids st1)
               (stderr st1 ++ [diagnostic (S (length before)) exc]))
  ∧ diagnostic (S (length before)) exc
    ∈ printed_of (iter_turns cfg (before ++ Invalid exc :: after))
  ∧ fate (iter_turns cfg (before ++ Invalid exc :: after))
    = fate (iter_turns cfg (before ++ after)).
Proof.
  intros Hbefore. split; [reflexivity|].
  unfold iter_turns. rewrite !run_app, Hbefore. cbn [run process_line Nat.add].
  split.
  - eapply elem_of_prefix; [|apply run_keeps_printed]. cbn.
    apply elem_of_app. right. apply list_elem_of_singleton. reflexivity.
  - apply run_same_data; reflexivity.
Qed.

Lemma invalid_line_skipped_witness :
  "Skipping invalid JSON line 2: Expecting value: line 1 column 1 (char 0)"
    ∈ printed_of (iter_turns plain three_lines)
  ∧ fate (iter_turns plain three_lines)
    = fate (iter_turns plain
              [Parsed (JObj (message_event "user" "user" (JStr "hi")));
               Parsed (JObj (message_event "assistant" "assistant" (JStr "hello")))]).
Proof.
  pose proof (invalid_line_skipped plain
                [Parsed (JObj (message_event "user" "user" (JStr "hi")))]
                "Expecting value: line 1 column 1 (char 0)"
                [Parsed (JObj (message_event "assistant" "assistant" (JStr "hello")))]
                (state_after
                   (run plain 1 initial
                      [Parsed (JObj (message_event "user" "user" (JStr "hi")))]))
                eq_refl) as (_ & Hdiag & Hfate).
  split; [exact Hdiag | exact Hfate].
Defined.

End Diagnostics.

(** ** Usage aggregation over a run *)

Section UsageRun.

Implicit Types (cfg : config) (st : state) (lines : list line).

Lemma add_usage_top value counts :
  add_usage EmptyString value counts = fold_left add_leaf (keyed_leaves value) counts.
Proof. apply (add_usage_leaves value []). Qed.

Lemma append_assoc (a b c : string) : ((a ++ b) ++ c = a ++ (b ++ c))%string.
Proof.
  induction a as [|x a IH]; [reflexivity|].
  change (String x ((a ++ b) ++ c) = String x (a ++ (b ++ c)))%string.
  rewrite IH. reflexivity.
Qed.

(** The dotted key is the keys joined by dots as soon as the first key is
    not empty (an empty prefix is taken for the top level). *)
Lemma dotted_from prefix path :
  prefix ≠ EmptyString →
  fold_left next_prefix path prefix = PyStr.join "." (prefix :: path).
Proof.
  revert prefix. induction path as [|key rest IH]; intros prefix Hne; [reflexivity|].
  cbn [fold_left]. unfold next_prefix at 2.
  destruct prefix as [|c prefix']; [congruence|]. cbn [PyStr.truthy].
  rewrite IH by discriminate. unfold PyStr.join. cbn [String.concat].
  destruct rest; rewrite ?append_assoc; reflexivity.
Qed.

Lemma dotted_is_join key path :
  key ≠ EmptyString → dotted (key :: path) = PyStr.join "." (key :: path).
Proof. intros Hne. unfold dotted. cbn [fold_left]. apply dotted_from. exact Hne. Qed.

Lemma usage_leaves_cons l lines :
  usage_leaves_of (l :: lines)
  = (match line_usage l with
     | Some usage => keyed_leaves (JObj usage)
     | None => []
     end ++ usage_leaves_of lines)%list.
Proof. reflexivity. Qed.

Lemma run_usage cfg lines n st st' :
  run cfg n st lines = Returns st' →
  usage_records (parsed st') = usage_records (parsed st) + length (omap line_usage lines)
  ∧ usage_counts (parsed st')
    = fold_left add_leaf (usage_leaves_of lines) (usage_counts (parsed st)).
Proof.
  revert lines n st st'.
  apply (run_returns_ind cfg
           (fun st lines st' =>
              usage_records (parsed st')
              = usage_records (parsed st) + length (omap line_usage lines)
              ∧ usage_counts (parsed st')
                = fold_left add_leaf (usage_leaves_of lines) (usage_counts (parsed st)))).
  - intros st. cbn. split; [lia|reflexivity].
  - intros n st l st1 rest st' Hl [IHn IHc].
    pose proof (line_step _ _ _ _ _ Hl) as (_ & _ & _ & Hc & Hn & _).
    rewrite IHn, IHc, Hn, Hc, usage_leaves_cons, fold_left_app.
    cbn [omap list_omap].
    destruct (line_usage l) as [usage|]; cbn [length fold_left].
    + rewrite add_usage_top. split; [lia|reflexivity].
    + split; reflexivity.
Qed.

(** A run returns exactly when none of its lines raises. *)
Lemma run_returns_no_raise cfg lines n st st' :
  run cfg n st lines = Returns st' → Forall (fun l => line_raises l = None) lines.
Proof.
  revert lines n st st'.
  apply (run_returns_ind cfg
           (fun _ lines _ => Forall (fun l => line_raises l = None) lines)).
  - constructor.
  - intros n st l st1 rest st' Hl IH. constructor; [|exact IH].
    pose proof (process_line_raises cfg n st l) as H. rewrite Hl in H. exact H.
Qed.

Lemma no_raise_run_returns cfg lines :
  Forall (fun l => line_raises l = None) lines →
  ∀ n st, ∃ st', run cfg n st lines = Returns st'.
Proof.
  induction 1 as [|l rest Hl _ IH]; intros n st; cbn [run]; [eauto|].
  pose proof (process_line_raises cfg n st l) as H.
  destruct (process_line cfg n st l) as [st1|e printed].
  - apply IH.
  - destruct H as [H _]. congruence.
Qed.

Lemma usage_leaves_perm lines lines' :
  Permutation lines lines' →
  Permutation (usage_leaves_of lines) (usage_leaves_of lines').
Proof. intros HP. unfold usage_leaves_of. apply Permutation_flat_map. exact HP. Qed.

(** C4.  [add_usage] leaves the counts alone on a [bool] and on every
    leaf that is not an [int], adds an [int] under the prefix it was
    given, and walks a mapping with the prefix extended by each key.  So
    a usage mapping adds, for every dotted key, the sum of the integer
    leaves that have this key, and puts no other key in the counts.  For
    a parse that returns, the record counter is the number of messages
    that carry a usage mapping, with or without integer leaves, and the
    counts are the keyed integer leaves of all of them added up. *)
Theorem usage_summation :
  (∀ prefix counts,
      (∀ b, add_usage prefix (JBool b) counts = counts)
      ∧ (∀ z, add_usage prefix (JInt z) counts
              = <[ prefix := (default 0 (counts !! prefix) + z)%Z ]> counts)
      ∧ add_usage prefix JNull counts = counts
      ∧ (∀ r, add_usage prefix (JFloat r) counts = counts)
      ∧ (∀ s, add_usage prefix (JStr s) counts = counts)
      ∧ (∀ items, add_usage prefix (JList items) counts = counts)
      ∧ (∀ fields, add_usage prefix (JObj fields) counts
                   = fold_left
                       (fun acc kv => add_usage (next_prefix prefix kv.1) kv.2 acc)
                       fields counts))
  ∧ (∀ usage counts key,
        add_usage EmptyString (JObj usage) counts !! key
        = if has_key key (keyed_leaves (JObj usage))
          then Some (default 0 (counts !! key)
                     + sum_at key (keyed_leaves (JObj usage)))%Z
          else counts !! key)
  ∧ (∀ cfg lines st,
        iter_turns cfg lines = Returns st →
        usage_records (parsed st) = length (omap line_usage lines)
        ∧ usage_counts (parsed st) = fold_left add_leaf (usage_leaves_of lines) ∅
        ∧ ∀ key,
            usage_counts (parsed st) !! key
            = if has_key key (usage_leaves_of lines)
              then Some (sum_at key (usage_leaves_of lines))
              else None).
Proof.
  split; [|split].
  - intros prefix counts. repeat split.
  - intros usage counts key. rewrite add_usage_top. apply fold_add_leaf_lookup.
  - intros cfg lines st H. apply run_usage in H as [Hn Hc].
    split; [exact Hn|]. split; [exact Hc|].
    intros key. rewrite Hc, fold_add_leaf_lookup. cbn.
    rewrite lookup_empty. reflexivity.
Qed.

Lemma usage_summation_witness :
  usage_records (parsed usage_state) = 3
  ∧ usage_counts (parsed usage_state) !! "input_tokens" = Some 11%Z
  ∧ usage_counts (parsed usage_state) !! "cache.read" = Some 5%Z
  ∧ usage_counts (parsed usage_state) !! "cache.hit" = None
  ∧ usage_counts (parsed usage_state) !! "ratio" = None.
Proof.
  pose proof (proj2 (proj2 usage_summation) plain usage_lines usage_state eq_refl)
    as (Hn & _ & Hkey).
  split; [exact Hn|].
  repeat split; rewrite Hkey; reflexivity.
Defined.

(** C9.  Over any reordering of the lines of a parse that returns, the
    parse returns too, with the same usage counts, key by key, and the
    same record counter. *)
Theorem usage_order_independent cfg lines lines' st :
  Permutation lines lines' →
  iter_turns cfg lines = Returns st →
  ∃ st', iter_turns cfg lines' = Returns st'
         ∧ usage_counts (parsed st') = usage_counts (parsed st)
         ∧ usage_records (parsed st') = usage_records (parsed st).
Proof.
  intros HP H.
  pose proof (run_returns_no_raise _ _ _ _ _ H) as Hno.
  rewrite HP in Hno.
  destruct (no_raise_run_returns cfg lines' Hno 1 initial) as [st' H'].
  exists st'. split; [exact H'|].
  apply run_usage in H as [Hn Hc]. apply run_usage in H' as [Hn' Hc'].
  split.
  - rewrite Hc, Hc'. apply fold_add_leaf_perm. symmetry.
    apply usage_leaves_perm. exact HP.
  - rewrite Hn, Hn'. f_equal. apply Permutation_length.
    rewrite HP. reflexivity.
Qed.

Lemma usage_order_independent_witness :
  ∃ st', iter_turns plain usage_lines_shuffled = Returns st'
         ∧ usage_counts (parsed st') = usage_counts (parsed usage_state)
         ∧ usage_records (parsed st') = usage_records (parsed usage_state).
Proof.
  apply (usage_order_independent plain usage_lines usage_lines_shuffled usage_state).
  - unfold usage_lines, usage_lines_shuffled.
    apply Permutation_sym. apply (Permutation_cons_app [_; _] []). reflexivity.
  - reflexivity.
Defined.

End UsageRun.

(** ** Scenarios and inputs outside the statements above *)

Section Scenarios.

(** Two lines, a user "hi" and an assistant "hello": two turns, "User"
    then "Assistant", one of each role. *)
Example two_turns :
  ∃ st, iter_turns plain three_lines = Returns st
        ∧ map (fun t => (index t, role t, body t)) (turns (parsed st))
          = [(1, "User", "hi"); (2, "Assistant", "hello")]
        ∧ role_counts (parsed st) !! "User" = Some 1
        ∧ role_counts (parsed st) !! "Assistant" = Some 1.
Proof. eexists. split; [reflexivity|]. repeat split. Qed.

(** [tool:Read] and its result under a deny-list with [Read]: no turn. *)
Example read_call_and_result_hidden :
  ∃ st, iter_turns deny_read read_lines = Returns st ∧ turns (parsed st) = [].
Proof. eexists. split; reflexivity. Qed.

(** The same two lines with every tool shown: both blocks appear. *)
Example read_call_and_result_shown :
  ∃ st, iter_turns all_tools read_lines = Returns st
        ∧ map body (turns (parsed st))
          = [fence "tool:Read" (JsonDumps.dumps (JObj [("path", JStr "notes.md")]));
             fence "tool_result" "secret"].
Proof. eexists. split; reflexivity. Qed.

(** The usage payload of the specification, twice. *)
Example usage_twice :
  ∃ st, iter_turns plain [usage_line "assistant" cache_usage;
                          usage_line "assistant" cache_usage] = Returns st
        ∧ usage_records (parsed st) = 2
        ∧ usage_counts (parsed st) !! "input_tokens" = Some 20%Z
        ∧ usage_counts (parsed st) !! "cache.read" = Some 10%Z.
Proof. eexists. split; [reflexivity|]. repeat split. Qed.

(** A [tool_result] mapping that is the whole content is not an item of
    the loop: it goes through [coerce_text], whatever the identifier
    sets hold, and its content is the body. *)
Example bare_result_not_filtered :
  ∃ st, run deny_read 2 after_read [bare_result_line] = Returns st
        ∧ map body (turns (parsed st)) = ["secret"].
Proof. eexists. split; reflexivity. Qed.

(** Lines that decode but are no events end the run: nothing catches
    the exception. *)
Example number_line_raises :
  iter_turns plain [number_line] = Raises AttributeError [].
Proof. reflexivity. Qed.

Example list_type_raises :
  iter_turns plain [list_type_line] = Raises TypeError [].
Proof. reflexivity. Qed.

Example numeric_role_raises :
  iter_turns plain [numeric_role_line] = Raises AttributeError [].
Proof. reflexivity. Qed.

(** An empty key at the top of a usage mapping adds no dot. *)
Example empty_top_key :
  keyed_leaves (JObj [(EmptyString, JObj [("a", JInt 1)])]) = [("a", 1%Z)].
Proof. reflexivity. Qed.

End Scenarios.

(** ** Python strings: stripping and case *)

Section Strings.

Lemma is_space_lower_char c : PyStr.is_space (PyStr.lower_char c) = PyStr.is_space c.
Proof. destruct c as [[] [] [] [] [] [] [] []]; reflexivity. Qed.

Lemma is_space_upper_char c : PyStr.is_space (PyStr.upper_char c) = PyStr.is_space c.
Proof. destruct c as [[] [] [] [] [] [] [] []]; reflexivity. Qed.

Lemma lower_upper_lower_char c :
  PyStr.lower_char (PyStr.upper_char (PyStr.lower_char c)) = PyStr.lower_char c.
Proof. destruct c as [[] [] [] [] [] [] [] []]; reflexivity. Qed.

Lemma lower_lower_char c : PyStr.lower_char (PyStr.lower_char c) = PyStr.lower_char c.
Proof. destruct c as [[] [] [] [] [] [] [] []]; reflexivity. Qed.

Lemma lower_idem s : PyStr.lower (PyStr.lower s) = PyStr.lower s.
Proof. induction s as [|c r IH]; cbn; [reflexivity|]. rewrite lower_lower_char, IH. reflexivity. Qed.

Lemma lower_empty s : PyStr.lower s = EmptyString → s = EmptyString.
Proof. destruct s; [reflexivity | discriminate]. Qed.

Lemma append_cons c (r b : string) : String c r ++ b = String c (r ++ b).
Proof. reflexivity. Qed.

Lemma append_empty_r (s : string) : s ++ EmptyString = s.
Proof. induction s as [|c r IH]; [reflexivity|]. rewrite append_cons, IH. reflexivity. Qed.

Lemma lower_app a b : PyStr.lower (a ++ b) = PyStr.lower a ++ PyStr.lower b.
Proof.
  induction a as [|c r IH]; [reflexivity|].
  rewrite append_cons. cbn [PyStr.lower]. rewrite IH. reflexivity.
Qed.

Lemma lstrip_head s c r : PyStr.lstrip s = String c r → PyStr.is_space c = false.
Proof.
  induction s as [|d t IH]; cbn; [discriminate|].
  destruct (PyStr.is_space d) eqn:Hd; [exact IH|].
  intros [= -> _]. exact Hd.
Qed.

Lemma lstrip_nonspace c r : PyStr.is_space c = false → PyStr.lstrip (String c r) = String c r.
Proof. intros H. cbn. rewrite H. reflexivity. Qed.

Lemma lstrip_idem s : PyStr.lstrip (PyStr.lstrip s) = PyStr.lstrip s.
Proof.
  destruct (PyStr.lstrip s) as [|c r] eqn:E; [reflexivity|].
  apply lstrip_nonspace. exact (lstrip_head _ _ _ E).
Qed.

Lemma lstrip_spaces ws s : all_space ws = true → PyStr.lstrip (ws ++ s) = PyStr.lstrip s.
Proof.
  induction ws as [|c r IH]; [reflexivity|].
  cbn [all_space]. intros [Hc Hr]%andb_true_iff.
  rewrite append_cons. cbn [PyStr.lstrip]. rewrite Hc. exact (IH Hr).
Qed.

Lemma all_space_lstrip ws : all_space ws = true → PyStr.lstrip ws = EmptyString.
Proof.
  induction ws as [|c r IH]; [reflexivity|].
  cbn [all_space]. intros [Hc Hr]%andb_true_iff. cbn. rewrite Hc. exact (IH Hr).
Qed.

Lemma lstrip_all_space ws s : all_space ws = true → PyStr.lstrip (ws ++ s) = PyStr.lstrip s.
Proof. apply lstrip_spaces. Qed.

Lemma lstrip_keeps s t c r : PyStr.lstrip s = String c r → PyStr.lstrip (s ++ t) = String c r ++ t.
Proof.
  induction s as [|d u IH]; [discriminate|].
  rewrite append_cons. cbn [PyStr.lstrip].
  destruct (PyStr.is_space d); [exact IH|].
  intros [= -> ->]. reflexivity.
Qed.

(** [rstrip] on a string with a first character. *)
Lemma rstrip_cons c r :
  PyStr.rstrip (String c r)
  = if PyStr.truthy (PyStr.rstrip r) then String c (PyStr.rstrip r)
    else if PyStr.is_space c then EmptyString else String c EmptyString.
Proof. cbn. destruct (PyStr.rstrip r); reflexivity. Qed.

Lemma rstrip_nonspace c r : PyStr.is_space c = false →
  PyStr.rstrip (String c r) = String c (PyStr.rstrip r).
Proof.
  intros H. rewrite rstrip_cons, H. destruct (PyStr.rstrip r); reflexivity.
Qed.

Lemma rstrip_idem s : PyStr.rstrip (PyStr.rstrip s) = PyStr.rstrip s.
Proof.
  induction s as [|c r IH]; [reflexivity|].
  rewrite rstrip_cons.
  destruct (PyStr.rstrip r) as [|d t] eqn:E; cbn [PyStr.truthy].
  - destruct (PyStr.is_space c) eqn:Hc; [reflexivity|].
    cbn. rewrite Hc. reflexivity.
  - rewrite rstrip_cons, IH. reflexivity.
Qed.

Lemma rstrip_app a b : PyStr.rstrip b ≠ EmptyString →
  PyStr.rstrip (a ++ b) = a ++ PyStr.rstrip b.
Proof.
  intros Hb. induction a as [|c r IH]; [reflexivity|].
  rewrite append_cons.
  rewrite rstrip_cons, IH, append_cons.
  destruct (r ++ PyStr.rstrip b) eqn:E; [|reflexivity].
  destruct r; [|discriminate]. contradiction.
Qed.

Lemma rstrip_app_blank a b : PyStr.rstrip b = EmptyString →
  PyStr.rstrip (a ++ b) = PyStr.rstrip a.
Proof.
  intros Hb. induction a as [|c r IH]; [exact Hb|].
  rewrite append_cons.
  rewrite !rstrip_cons, IH. reflexivity.
Qed.

Lemma strip_idem s : PyStr.strip (PyStr.strip s) = PyStr.strip s.
Proof.
  unfold PyStr.strip.
  destruct (PyStr.lstrip s) as [|c r] eqn:E; [reflexivity|].
  pose proof (lstrip_head _ _ _ E) as Hc.
  rewrite (rstrip_nonspace c r Hc), (lstrip_nonspace _ _ Hc), (rstrip_nonspace _ _ Hc).
  rewrite rstrip_idem. reflexivity.
Qed.

Lemma strip_head s c r : PyStr.strip s = String c r → PyStr.is_space c = false.
Proof.
  unfold PyStr.strip. destruct (PyStr.lstrip s) as [|d t] eqn:E; [discriminate|].
  pose proof (lstrip_head _ _ _ E) as Hd.
  rewrite (rstrip_nonspace d t Hd). intros [= -> _]. exact Hd.
Qed.

Lemma strip_rstrip s : PyStr.rstrip (PyStr.strip s) = PyStr.strip s.
Proof. apply rstrip_idem. Qed.

Lemma lower_lstrip s : PyStr.lstrip (PyStr.lower s) = PyStr.lower (PyStr.lstrip s).
Proof.
  induction s as [|c r IH]; [reflexivity|].
  cbn. rewrite is_space_lower_char. destruct (PyStr.is_space c); [exact IH | reflexivity].
Qed.

Lemma lower_rstrip s : PyStr.rstrip (PyStr.lower s) = PyStr.lower (PyStr.rstrip s).
Proof.
  induction s as [|c r IH]; [reflexivity|].
  change (PyStr.lower (String c r)) with (String (PyStr.lower_char c) (PyStr.lower r)).
  rewrite !rstrip_cons, IH, is_space_lower_char.
  destruct (PyStr.rstrip r); cbn; [destruct (PyStr.is_space c)|]; reflexivity.
Qed.

Lemma lower_strip s : PyStr.strip (PyStr.lower s) = PyStr.lower (PyStr.strip s).
Proof. unfold PyStr.strip. rewrite lower_lstrip, lower_rstrip. reflexivity. Qed.

Lemma rstrip_spaces ws : all_space ws = true → PyStr.rstrip ws = EmptyString.
Proof.
  induction ws as [|c r IH]; [reflexivity|].
  cbn [all_space]. intros [Hc Hr]%andb_true_iff.
  rewrite rstrip_cons, (IH Hr), Hc. reflexivity.
Qed.

(** White space around a text goes, and [lower] does not change what is
    white space. *)
Lemma strip_padded before s after :
  all_space before = true → all_space after = true →
  PyStr.strip (before ++ PyStr.lower s ++ after) = PyStr.lower (PyStr.strip s).
Proof.
  intros Hb Ha. unfold PyStr.strip at 1.
  rewrite (lstrip_spaces _ _ Hb).
  rewrite <- lower_strip. unfold PyStr.strip.
  destruct (PyStr.lstrip (PyStr.lower s)) as [|c r] eqn:E.
  - assert (all_space (PyStr.lower s) = true) as Hs.
    { clear -E. induction (PyStr.lower s) as [|d t IH]; [reflexivity|].
      cbn in E |- *. destruct (PyStr.is_space d); [exact (IH E) | discriminate]. }
    rewrite (lstrip_all_space _ _ Hs), (all_space_lstrip _ Ha).
    reflexivity.
  - rewrite (lstrip_keeps _ _ _ _ E), (rstrip_app_blank _ _ (rstrip_spaces _ Ha)).
    reflexivity.
Qed.

Lemma ascii_lower_char c :
  (PyStr.code c <? 128)%nat = true → (PyStr.code (PyStr.lower_char c) <? 128)%nat = true.
Proof. destruct c as [[] [] [] [] [] [] [] []]; vm_compute; congruence. Qed.

Lemma ascii_upper_char c :
  (PyStr.code c <? 128)%nat = true → (PyStr.code (PyStr.upper_char c) <? 128)%nat = true.
Proof. destruct c as [[] [] [] [] [] [] [] []]; vm_compute; congruence. Qed.

Lemma ascii_only_lower s : ascii_only s = true → ascii_only (PyStr.lower s) = true.
Proof.
  induction s as [|c r IH]; [reflexivity|].
  cbn [ascii_only PyStr.lower]. intros [Hc Hr]%andb_true_iff.
  rewrite (ascii_lower_char c Hc), (IH Hr). reflexivity.
Qed.

Lemma ascii_only_capitalize s : ascii_only s = true → ascii_only (PyStr.capitalize s) = true.
Proof.
  destruct s as [|c r]; [reflexivity|].
  cbn [ascii_only PyStr.capitalize]. intros [Hc Hr]%andb_true_iff.
  rewrite (ascii_upper_char c Hc), (ascii_only_lower r Hr). reflexivity.
Qed.

Lemma ascii_only_lstrip s : ascii_only s = true → ascii_only (PyStr.lstrip s) = true.
Proof.
  induction s as [|c r IH]; [reflexivity|].
  cbn [PyStr.lstrip]. destruct (PyStr.is_space c); [|trivial].
  cbn [ascii_only]. intros [_ Hr]%andb_true_iff. exact (IH Hr).
Qed.

Lemma ascii_only_rstrip s : ascii_only s = true → ascii_only (PyStr.rstrip s) = true.
Proof.
  induction s as [|c r IH]; [reflexivity|].
  cbn [ascii_only]. intros [Hc Hr]%andb_true_iff.
  rewrite rstrip_cons. specialize (IH Hr).
  destruct (PyStr.truthy (PyStr.rstrip r)).
  - cbn [ascii_only]. rewrite Hc, IH. reflexivity.
  - destruct (PyStr.is_space c); [reflexivity|]. cbn [ascii_only]. rewrite Hc. reflexivity.
Qed.

Lemma ascii_only_strip s : ascii_only s = true → ascii_only (PyStr.strip s) = true.
Proof. intros H. apply ascii_only_rstrip, ascii_only_lstrip, H. Qed.

End Strings.

(** ** Role and tool names *)

Section Names.

Lemma normalize_role_str s fallback :
  PyStr.truthy s = true →
  normalize_role (JStr s) fallback
  = inr (if PyStr.truthy (PyStr.lower (PyStr.strip s))
         then PyStr.capitalize (PyStr.lower (PyStr.strip s))
         else "Unknown").
Proof.
  intros Hs. unfold normalize_role. cbn [Py.truthy]. rewrite Hs. f_equal.
  destruct (String.eqb_spec (PyStr.lower (PyStr.strip s)) "assistant") as [->|_];
    [reflexivity|].
  destruct (String.eqb_spec (PyStr.lower (PyStr.strip s)) "user") as [->|_];
    [reflexivity|].
  destruct (String.eqb_spec (PyStr.lower (PyStr.strip s)) "system") as [->|_];
    [reflexivity|].
  destruct (PyStr.lower (PyStr.strip s)); reflexivity.
Qed.

(** Whatever the role is, the text that gets normalized is a non-empty
    string: the role, the fallback or [unknown]. *)
Lemma normalize_role_chosen raw_role fallback role :
  normalize_role raw_role fallback = inr role →
  ∃ s, PyStr.truthy s = true
       ∧ (raw_role = JStr s ∨ s = fallback ∨ s = "unknown")
       ∧ ∀ fallback', normalize_role (JStr s) fallback' = inr role.
Proof.
  unfold normalize_role at 1.
  destruct (Py.truthy raw_role) eqn:Ht.
  - destruct raw_role; try discriminate. cbn in Ht. intros H. exists s.
    split; [exact Ht|]. split; [left; reflexivity|].
    intros fallback'. rewrite <- H. unfold normalize_role. cbn [Py.truthy]. rewrite Ht.
    reflexivity.
  - destruct (PyStr.truthy fallback) eqn:Hf; intros H.
    + exists fallback. split; [exact Hf|]. split; [right; left; reflexivity|].
      intros fallback'. rewrite <- H.
      unfold normalize_role. cbn [Py.truthy]. rewrite Hf. reflexivity.
    + exists "unknown". split; [reflexivity|]. split; [right; right; reflexivity|].
      intros fallback'. rewrite <- H. reflexivity.
Qed.

Lemma strip_capitalize role :
  PyStr.strip role = role → PyStr.strip (PyStr.capitalize role) = PyStr.capitalize role.
Proof.
  destruct role as [|c t]; [reflexivity|]. intros H.
  pose proof (strip_head _ _ _ H) as Hc.
  assert (PyStr.rstrip t = t) as Ht.
  { pose proof (strip_rstrip (String c t)) as Hr. rewrite H in Hr.
    rewrite (rstrip_nonspace _ _ Hc) in Hr. congruence. }
  unfold PyStr.capitalize, PyStr.strip.
  assert (PyStr.is_space (PyStr.upper_char c) = false) as Hu
    by (rewrite is_space_upper_char; exact Hc).
  rewrite (lstrip_nonspace _ _ Hu), (rstrip_nonspace _ _ Hu), lower_rstrip, Ht.
  reflexivity.
Qed.

Lemma lower_capitalize_lower s :
  PyStr.lower (PyStr.capitalize (PyStr.lower s)) = PyStr.lower s.
Proof.
  destruct s as [|c t]; [reflexivity|].
  cbn. rewrite lower_upper_lower_char, !lower_idem. reflexivity.
Qed.

Lemma normalize_role_nonempty raw_role fallback role :
  normalize_role raw_role fallback = inr role → role ≠ EmptyString.
Proof.
  intros E. destruct (normalize_role_chosen _ _ _ E) as (s & Hs & _ & Hrole).
  specialize (Hrole fallback). rewrite (normalize_role_str s fallback Hs) in Hrole.
  injection Hrole as <-.
  destruct (PyStr.lower (PyStr.strip s)); discriminate.
Qed.

Lemma normalize_role_fixed raw_role fallback role :
  normalize_role raw_role fallback = inr role →
  ∀ fallback', normalize_role (JStr role) fallback' = inr role.
Proof.
  intros E fallback'.
  destruct (normalize_role_chosen _ _ _ E) as (s & Hs & _ & Hrole).
  specialize (Hrole fallback). rewrite (normalize_role_str s fallback Hs) in Hrole.
  injection Hrole as <-.
  assert (PyStr.strip (PyStr.lower (PyStr.strip s)) = PyStr.lower (PyStr.strip s)) as Hst
    by (rewrite lower_strip, strip_idem; reflexivity).
  destruct (PyStr.lower (PyStr.strip s)) as [|c t] eqn:Hr; [reflexivity|].
  cbn [PyStr.truthy].
  rewrite normalize_role_str by reflexivity.
  rewrite (strip_capitalize _ Hst), <- Hr, lower_capitalize_lower, Hr.
  reflexivity.
Qed.

(** X1: [normalize_role] raises exactly on a true role that is not a
    string; in every other case it returns a non-empty label. *)
Theorem normalize_role_outcome raw_role fallback :
  match normalize_role raw_role fallback with
  | inl e => e = AttributeError ∧ Py.truthy raw_role = true ∧ ∀ s, raw_role ≠ JStr s
  | inr role =>
      role ≠ EmptyString ∧ (Py.truthy raw_role = true → ∃ s, raw_role = JStr s)
  end.
Proof.
  destruct (normalize_role raw_role fallback) as [e|role] eqn:E.
  - unfold normalize_role in E.
    destruct (Py.truthy raw_role) eqn:Ht.
    + destruct raw_role; try discriminate; injection E as <-; repeat split; discriminate.
    + destruct (PyStr.truthy fallback); discriminate.
  - split.
    + exact (normalize_role_nonempty _ _ _ E).
    + intros Ht. unfold normalize_role in E. rewrite Ht in E.
      destruct raw_role; try discriminate. eauto.
Qed.

Lemma normalize_role_ascii raw_role fallback role :
  (∀ s, raw_role = JStr s → ascii_only s = true) →
  ascii_only fallback = true →
  normalize_role raw_role fallback = inr role →
  ascii_only role = true.
Proof.
  intros Hraw Hfallback E.
  destruct (normalize_role_chosen _ _ _ E) as (s & Hs & Hwhich & Hrole).
  assert (ascii_only s = true) as Hascii.
  { destruct Hwhich as [->|[->| ->]]; [apply Hraw; reflexivity|exact Hfallback|reflexivity]. }
  specialize (Hrole fallback). rewrite (normalize_role_str s fallback Hs) in Hrole.
  injection Hrole as <-.
  destruct (PyStr.truthy (PyStr.lower (PyStr.strip s))); [|reflexivity].
  apply ascii_only_capitalize, ascii_only_lower, ascii_only_strip, Hascii.
Qed.

(** X2: On ASCII text [normalize_role] is idempotent.  When the role, if
    it is a string, and the fallback hold ASCII characters only, the
    label returned holds ASCII characters only and is left as it is when
    it is normalized again, whatever the fallback; lower-cased and with
    white space put around it, it normalizes to itself again.  (Beyond
    ASCII [str.capitalize] can change the length of a text, and the
    embedding of the [str] methods does not reach there.) *)
Theorem normalize_role_idempotent raw_role fallback role :
  (∀ s, raw_role = JStr s → ascii_only s = true) →
  ascii_only fallback = true →
  normalize_role raw_role fallback = inr role →
  ascii_only role = true
  ∧ ∀ fallback' before after,
      all_space before = true → all_space after = true →
      normalize_role (JStr role) fallback' = inr role
      ∧ normalize_role (JStr (before ++ PyStr.lower role ++ after)) fallback' = inr role.
Proof.
  intros Hraw Hfallback E.
  split; [exact (normalize_role_ascii _ _ _ Hraw Hfallback E)|].
  intros fallback' before after Hb Ha.
  pose proof (normalize_role_fixed _ _ _ E fallback') as Hfix.
  split; [exact Hfix|].
  pose proof (normalize_role_nonempty _ _ _ E) as Hne.
  assert (PyStr.truthy role = true) as Hrole by (destruct role; [contradiction|reflexivity]).
  rewrite (normalize_role_str role fallback' Hrole) in Hfix.
  assert (PyStr.strip (before ++ PyStr.lower role ++ after) = PyStr.lower (PyStr.strip role))
    as Hstrip.
  { apply strip_padded; assumption. }
  assert (PyStr.truthy (before ++ PyStr.lower role ++ after) = true) as Hpad.
  { destruct before; [|reflexivity]. destruct role; [discriminate|reflexivity]. }
  rewrite (normalize_role_str _ fallback' Hpad), Hstrip, lower_idem.
  exact Hfix.
Qed.

Lemma normalize_role_idempotent_witness :
  normalize_role (JStr "  aSSistant ") "user" = inr "Assistant"
  ∧ normalize_role (JStr "Assistant") "system" = inr "Assistant"
  ∧ normalize_role (JStr (" " ++ "assistant" ++ PyStr.nl)) "system" = inr "Assistant".
Proof.
  split; [reflexivity|].
  assert (∀ s, JStr "  aSSistant " = JStr s → ascii_only s = true) as Hraw
    by (intros s [= <-]; reflexivity).
  destruct (normalize_role_idempotent (JStr "  aSSistant ") "user" "Assistant"
              Hraw eq_refl eq_refl) as [_ Hfix].
  apply (Hfix "system" " " PyStr.nl); reflexivity.
Defined.

(** X3: In [iter_turns] the fallback is the event type, so a message
    without a role (or with an empty or false one) is labelled by the type
    of its event; a role of white space only is not replaced by the
    fallback and is labelled [Unknown]. *)
Theorem role_falls_back_to_event_type event_type fallback :
  turn_type event_type = Some fallback →
  (∀ raw_role, Py.truthy raw_role = false →
     normalize_role raw_role fallback = inr (PyStr.capitalize fallback))
  ∧ (∀ s, PyStr.truthy s = true → PyStr.strip s = EmptyString →
       normalize_role (JStr s) fallback = inr "Unknown").
Proof.
  intros Ht. split.
  - intros raw_role Hraw. unfold turn_type in Ht.
    destruct event_type; try discriminate.
    unfold normalize_role. rewrite Hraw.
    destruct (String.eqb_spec s "user") as [->|_]; cbn in Ht.
    + injection Ht as <-. reflexivity.
    + destruct (String.eqb_spec s "assistant") as [->|_]; [|discriminate].
      injection Ht as <-. reflexivity.
  - intros s Hs Hblank. rewrite (normalize_role_str s fallback Hs), Hblank. reflexivity.
Qed.

Lemma role_falls_back_to_event_type_witness :
  normalize_role JNull "assistant" = inr "Assistant"
  ∧ normalize_role (JStr EmptyString) "assistant" = inr "Assistant"
  ∧ normalize_role (JStr "  ") "assistant" = inr "Unknown".
Proof.
  pose proof (role_falls_back_to_event_type (JStr "assistant") "assistant" eq_refl)
    as [Hfalse Hblank].
  split; [exact (Hfalse JNull eq_refl)|].
  split; [exact (Hfalse (JStr EmptyString) eq_refl)|].
  exact (Hblank "  " eq_refl eq_refl).
Defined.

Lemma lower_char_nonspace c d :
  PyStr.lower_char c = d → PyStr.is_space d = false → PyStr.is_space c = false.
Proof. intros <-. rewrite is_space_lower_char. trivial. Qed.

(** X4: A [tool:] prefix, in any letter case and after any white space,
    is cut off: what is left is the text after it without its trailing
    white space.  One prefix is cut, not two. *)
Theorem normalize_tool_name_prefix ws p n :
  all_space ws = true → PyStr.lower p = "tool:" →
  normalize_tool_name (ws ++ p ++ n) = PyStr.rstrip n.
Proof.
  intros Hws Hp.
  destruct p as [|c1 [|c2 [|c3 [|c4 [|c5 [|c6 p]]]]]]; try discriminate.
  cbn in Hp. injection Hp as H1 H2 H3 H4 H5.
  pose proof (lower_char_nonspace _ _ H1 eq_refl) as S1.
  pose proof (lower_char_nonspace _ _ H2 eq_refl) as S2.
  pose proof (lower_char_nonspace _ _ H3 eq_refl) as S3.
  pose proof (lower_char_nonspace _ _ H4 eq_refl) as S4.
  pose proof (lower_char_nonspace _ _ H5 eq_refl) as S5.
  unfold normalize_tool_name, PyStr.strip.
  rewrite (lstrip_spaces _ _ Hws), !append_cons.
  change (EmptyString ++ n) with n.
  rewrite (lstrip_nonspace _ _ S1).
  rewrite (rstrip_nonspace _ _ S1), (rstrip_nonspace _ _ S2), (rstrip_nonspace _ _ S3),
    (rstrip_nonspace _ _ S4), (rstrip_nonspace _ _ S5).
  cbn [PyStr.lower]. rewrite H1, H2, H3, H4, H5.
  unfold PyStr.startswith.
  destruct (PyStr.lower (PyStr.rstrip n)); reflexivity.
Qed.

Lemma normalize_tool_name_prefix_witness :
  normalize_tool_name "  TooL:Read  " = "Read"
  ∧ normalize_tool_name "tool:tool:Read" = "tool:Read".
Proof.
  split.
  - apply (normalize_tool_name_prefix "  " "TooL:" "Read  "); reflexivity.
  - reflexivity.
Defined.

End Names.

(** ** Quoting of the front matter values *)

Section Quoting.

Lemma replace_char_app old new a b :
  PyLib.replace_char old new (a ++ b)
  = PyLib.replace_char old new a ++ PyLib.replace_char old new b.
Proof.
  induction a as [|c r IH]; [reflexivity|].
  rewrite append_cons. cbn [PyLib.replace_char]. rewrite IH, append_assoc. reflexivity.
Qed.

(** The two passes of [quote_yaml] on a string with a first character. *)
Lemma yaml_escaped_cons c r :
  yaml_escaped (String c r)
  = (if Ascii.eqb c PyStr.backslash then "\\"
     else if Ascii.eqb c PyStr.dquote
          then String PyStr.backslash (String PyStr.dquote EmptyString)
          else String c EmptyString)
    ++ yaml_escaped r.
Proof.
  unfold yaml_escaped. cbn [PyLib.replace_char].
  rewrite replace_char_app. f_equal.
  destruct (Ascii.eqb_spec c PyStr.backslash) as [->|Hb]; [reflexivity|].
  cbn [PyLib.replace_char].
  destruct (Ascii.eqb c PyStr.dquote); reflexivity.
Qed.

Lemma read_escaped_quoted v :
  read_escaped (yaml_escaped v ++ String PyStr.dquote EmptyString) = Some v.
Proof.
  induction v as [|c r IH]; [reflexivity|].
  rewrite yaml_escaped_cons, append_assoc.
  destruct (Ascii.eqb_spec c PyStr.backslash) as [->|Hb].
  - change (read_escaped
              (String PyStr.backslash
                 (String PyStr.backslash (yaml_escaped r ++ String PyStr.dquote EmptyString)))
            = Some (String PyStr.backslash r)).
    cbn [read_escaped].
    change (Ascii.eqb PyStr.backslash PyStr.dquote) with false.
    change (Ascii.eqb PyStr.backslash PyStr.backslash) with true.
    cbv iota. rewrite IH. reflexivity.
  - destruct (Ascii.eqb_spec c PyStr.dquote) as [->|Hq].
    + change (read_escaped
                (String PyStr.backslash
                   (String PyStr.dquote (yaml_escaped r ++ String PyStr.dquote EmptyString)))
              = Some (String PyStr.dquote r)).
      cbn [read_escaped].
      change (Ascii.eqb PyStr.backslash PyStr.dquote) with false.
      change (Ascii.eqb PyStr.backslash PyStr.backslash) with true.
      cbv iota. rewrite IH. reflexivity.
    + change (read_escaped (String c (yaml_escaped r ++ String PyStr.dquote EmptyString))
              = Some (String c r)).
      cbn [read_escaped].
      destruct (Ascii.eqb_spec c PyStr.dquote) as [|_]; [contradiction|].
      destruct (Ascii.eqb_spec c PyStr.backslash) as [|_]; [contradiction|].
      rewrite IH. reflexivity.
Qed.

Lemma unquote_quote v : unquote_yaml (quote_yaml v) = Some v.
Proof. exact (read_escaped_quoted v). Qed.

(** X5: What [quote_yaml] writes reads back to the value: the text
    between the quotes, with a backslash taken as making the next
    character literal, ends at the closing quote and nowhere before, and
    is the value. *)
Theorem quote_yaml_reads_back value : unquote_yaml (quote_yaml value) = Some value.
Proof. apply unquote_quote. Qed.

(** X6: Two values with the same quoted text are the same value. *)
Theorem quote_yaml_injective a b : quote_yaml a = quote_yaml b → a = b.
Proof.
  intros H. apply (f_equal unquote_yaml) in H.
  rewrite !unquote_quote in H. congruence.
Qed.

Lemma quote_yaml_injective_witness :
  quote_yaml path_with_quote = quote_yaml path_with_quote
  ∧ path_with_quote = String "a" (String PyStr.backslash (String PyStr.dquote "b")).
Proof.
  split; [reflexivity|].
  apply (quote_yaml_injective path_with_quote). reflexivity.
Defined.

End Quoting.

(** ** The two switches: thinking and tools *)

Section Switches.

Lemma thinking_item_dropped cfg ids item :
  include_thinking cfg = false → is_thinking_item item = true →
  extract_item cfg ids item = (ids, None).
Proof.
  intros Hoff Htag. destruct item; try discriminate.
  unfold is_thinking_item, item_tag in Htag.
  apply is_tag_true in Htag.
  unfold extract_item. rewrite Htag, Hoff. reflexivity.
Qed.

Lemma extract_parts_without_thinking cfg items : ∀ ids,
  include_thinking cfg = false →
  extract_parts cfg ids items
  = extract_parts cfg ids (List.filter (fun item => negb (is_thinking_item item)) items).
Proof.
  induction items as [|item rest IH]; intros ids Hoff; [reflexivity|].
  cbn [List.filter].
  destruct (is_thinking_item item) eqn:Htag; cbn [negb extract_parts].
  - rewrite (thinking_item_dropped cfg ids item Hoff Htag).
    rewrite (IH ids Hoff).
    destruct (extract_parts cfg ids _); reflexivity.
  - destruct (extract_item cfg ids item) as [ids1 part].
    rewrite (IH ids1 Hoff). reflexivity.
Qed.

Lemma tool_item_dropped cfg ids item :
  include_tools cfg = false → is_tool_item item = true →
  extract_item cfg ids item = (ids, None).
Proof.
  intros Hoff Htag. destruct item; try discriminate.
  unfold is_tool_item, item_tag in Htag.
  apply orb_true_iff in Htag as [Htag|Htag]; apply is_tag_true in Htag;
    unfold extract_item; rewrite Htag, Hoff; reflexivity.
Qed.

Lemma extract_item_tools_off cfg ids item :
  include_tools cfg = false → (extract_item cfg ids item).1 = ids.
Proof.
  intros Hoff. unfold extract_item. rewrite Hoff.
  repeat case_match; reflexivity.
Qed.

Lemma extract_parts_tools_off cfg items : ∀ ids,
  include_tools cfg = false →
  extract_parts cfg ids items
  = (ids, (extract_parts cfg ids
             (List.filter (fun item => negb (is_tool_item item)) items)).2).
Proof.
  induction items as [|item rest IH]; intros ids Hoff; [reflexivity|].
  cbn [List.filter].
  destruct (is_tool_item item) eqn:Htag; cbn [negb extract_parts].
  - rewrite (tool_item_dropped cfg ids item Hoff Htag). rewrite (IH ids Hoff). reflexivity.
  - pose proof (extract_item_tools_off cfg ids item Hoff) as Hids.
    destruct (extract_item cfg ids item) as [ids1 part]. cbn in Hids. subst ids1.
    rewrite (IH ids Hoff).
    destruct (extract_parts cfg ids (List.filter _ rest)); reflexivity.
Qed.

Lemma extract_body_tools_off cfg ids content :
  include_tools cfg = false → (extract_body cfg ids content).1 = ids.
Proof.
  intros Hoff. destruct content; try reflexivity.
  unfold extract_body. rewrite (extract_parts_tools_off cfg items ids Hoff). reflexivity.
Qed.

(** X7: With [include_thinking] off, a content sequence gives the body
    and the identifier sets it gives with its [thinking] items taken out. *)
Theorem thinking_hidden cfg ids items :
  include_thinking cfg = false →
  extract_body cfg ids (JList items)
  = extract_body cfg ids
      (JList (List.filter (fun item => negb (is_thinking_item item)) items)).
Proof.
  intros Hoff. unfold extract_body.
  rewrite (extract_parts_without_thinking cfg items ids Hoff). reflexivity.
Qed.

Lemma thinking_hidden_witness :
  extract_body plain no_ids (JList [JObj musing; JStr "done"]) = (no_ids, "done").
Proof.
  rewrite (thinking_hidden plain no_ids [JObj musing; JStr "done"] eq_refl).
  reflexivity.
Defined.

(** X8: With [include_tools] off, no [tool_use] and no [tool_result] item
    leaves a trace: the body of a content sequence is the one it has
    without these items, no content changes the identifier sets, and a
    whole parse ends with both sets empty. *)
Theorem tools_off_leave_no_trace cfg :
  include_tools cfg = false →
  (∀ ids items,
      extract_body cfg ids (JList items)
      = (ids, (extract_body cfg ids
                 (JList (List.filter (fun item => negb (is_tool_item item)) items))).2))
  ∧ (∀ ids content, (extract_body cfg ids content).1 = ids)
  ∧ (∀ lines st, iter_turns cfg lines = Returns st → ids st = no_ids).
Proof.
  intros Hoff. split; [|split].
  - intros ids items. unfold extract_body.
    rewrite (extract_parts_tools_off cfg items ids Hoff).
    destruct (extract_parts cfg ids (List.filter _ items)); reflexivity.
  - intros ids content. exact (extract_body_tools_off cfg ids content Hoff).
  - intros lines st Hrun.
    change no_ids with (ids initial).
    refine (run_returns_ind cfg (fun st _ st' => ids st' = ids st) _ _ lines 1 initial st Hrun).
    + reflexivity.
    + intros n st0 l st1 rest st' Hline IH. rewrite IH.
      destruct (process_line_returns _ _ _ _ _ Hline)
        as [[_ ->]|[(exc & _ & ->)|(fields & _ & Hev)]]; try reflexivity.
      destruct (process_event_returns _ _ _ _ Hev) as (fields' & [= <-] & _ & Hcase).
      destruct (turn_message fields) as [[fallback message]|].
      * destruct Hcase as (role & _ & Hids & _). rewrite Hids.
        exact (extract_body_tools_off cfg _ _ Hoff).
      * tauto.
Qed.

Lemma tools_off_leave_no_trace_witness :
  extract_body plain no_ids (JList [JObj read_use; JStr "ok"; JObj read_result])
  = (no_ids, "ok")
  ∧ ids (state_after (iter_turns plain read_lines)) = no_ids.
Proof.
  destruct (tools_off_leave_no_trace plain eq_refl) as (Hbody & _ & Hrun).
  split.
  - rewrite Hbody. reflexivity.
  - apply (Hrun read_lines). reflexivity.
Defined.

End Switches.

(** ** What the emitted turns look like *)

Section EmittedTurns.

Lemma extract_body_stripped cfg ids content :
  PyStr.strip (extract_body cfg ids content).2 = (extract_body cfg ids content).2.
Proof.
  destruct content; cbn [extract_body snd]; try apply strip_idem.
  destruct (extract_parts cfg ids items). apply strip_idem.
Qed.

Lemma truthy_nonempty s : PyStr.truthy s = true → s ≠ EmptyString.
Proof. destruct s; [discriminate|]. intros _. discriminate. Qed.

Lemma process_event_normal cfg st fields st' :
  process_event cfg st (JObj fields) = Returns st' →
  Forall normal_turn (turns (parsed st)) → Forall normal_turn (turns (parsed st')).
Proof.
  intros Hev Hall.
  destruct (process_event_returns _ _ _ _ Hev) as (fields' & [= <-] & _ & Hcase).
  destruct (turn_message fields) as [[fallback message]|].
  - destruct Hcase as (label & Hrole & _ & Hparsed). cbn zeta in Hparsed.
    rewrite Hparsed.
    destruct (PyStr.truthy (extract_body cfg (ids st) (Py.get "content" message)).2) eqn:Hb.
    + cbn [emit_turn turns see_message see_event]. apply Forall_app. split; [exact Hall|].
      constructor; [|constructor].
      repeat split; cbn [body role].
      * exact (truthy_nonempty _ Hb).
      * apply extract_body_stripped.
      * exact (normalize_role_nonempty _ _ _ Hrole).
    + exact Hall.
  - destruct Hcase as [_ ->]. exact Hall.
Qed.

Lemma run_normal cfg lines n st st' :
  run cfg n st lines = Returns st' →
  Forall normal_turn (turns (parsed st)) → Forall normal_turn (turns (parsed st')).
Proof.
  intros Hrun.
  refine (run_returns_ind cfg
            (fun st _ st' =>
               Forall normal_turn (turns (parsed st)) →
               Forall normal_turn (turns (parsed st')))
            _ _ lines n st st' Hrun).
  - trivial.
  - intros k st0 l st1 rest st2 Hline IH Hall. apply IH.
    destruct (process_line_returns _ _ _ _ _ Hline)
      as [[_ ->]|[(exc & _ & ->)|(fields & _ & Hev)]]; try exact Hall.
    exact (process_event_normal _ _ _ _ Hev Hall).
Qed.

(** X9: Every turn a parse emits has a body that is not empty and that
    [strip] leaves as it is (no white space at either end), and a role
    label that is not empty. *)
Theorem emitted_turns_are_normal cfg lines st :
  iter_turns cfg lines = Returns st → Forall normal_turn (turns (parsed st)).
Proof.
  intros Hrun. apply (run_normal cfg lines 1 initial st Hrun). constructor.
Qed.

Lemma emitted_turns_are_normal_witness :
  Forall normal_turn (turns (parsed (state_after (iter_turns plain padded_lines))))
  ∧ map (fun t => (role t, body t)) (turns (parsed (state_after (iter_turns plain padded_lines))))
    = [("Reviewer", "looks fine")].
Proof.
  split; [|reflexivity].
  apply (emitted_turns_are_normal plain padded_lines). reflexivity.
Defined.

End EmittedTurns.

(** ** Tool correlator: the identifiers of the calls that were shown *)

Section Included.

Lemma add_included_mono v ids : included_of ids ⊆ included_of (add_included v ids).
Proof. unfold add_included. destruct (Py.nonempty_str v); cbn; set_solver. Qed.

Lemma add_excluded_included v ids : included_of (add_excluded v ids) = included_of ids.
Proof. unfold add_excluded. destruct (Py.nonempty_str v); reflexivity. Qed.

Lemma extract_item_included_mono cfg ids item :
  included_of ids ⊆ included_of (extract_item cfg ids item).1.
Proof.
  unfold extract_item.
  repeat case_match; cbn [fst]; try reflexivity;
    [rewrite add_excluded_included; reflexivity | apply add_included_mono].
Qed.

Lemma extract_parts_included_mono cfg items : ∀ ids,
  included_of ids ⊆ included_of (extract_parts cfg ids items).1.
Proof.
  induction items as [|item rest IH]; intros ids; [reflexivity|].
  cbn [extract_parts].
  pose proof (extract_item_included_mono cfg ids item) as H1.
  destruct (extract_item cfg ids item) as [ids1 part].
  pose proof (IH ids1) as H2.
  destruct (extract_parts cfg ids1 rest) as [ids2 parts].
  cbn [fst] in *. set_solver.
Qed.

Lemma extract_body_included_mono cfg ids content :
  included_of ids ⊆ included_of (extract_body cfg ids content).1.
Proof.
  destruct content; try reflexivity.
  unfold extract_body.
  pose proof (extract_parts_included_mono cfg items ids) as H.
  destruct (extract_parts cfg ids items). exact H.
Qed.

Lemma process_event_included_mono cfg st event st' :
  process_event cfg st event = Returns st' →
  included_of (ids st) ⊆ included_of (ids st').
Proof.
  intros Hev.
  destruct (process_event_returns _ _ _ _ Hev) as (fields & -> & _ & Hcase).
  destruct (turn_message fields) as [[fallback message]|].
  - destruct Hcase as (role & _ & -> & _). apply extract_body_included_mono.
  - destruct Hcase as [-> _]. reflexivity.
Qed.

Lemma run_included_mono cfg lines n st st' :
  run cfg n st lines = Returns st' →
  included_of (ids st) ⊆ included_of (ids st').
Proof.
  intros Hrun.
  refine (run_returns_ind cfg
            (fun st _ st' => included_of (ids st) ⊆ included_of (ids st'))
            _ _ lines n st st' Hrun).
  - reflexivity.
  - intros k st0 l st1 rest st2 Hline IH. etransitivity; [|exact IH].
    destruct (process_line_returns _ _ _ _ _ Hline)
      as [[_ ->]|[(exc & _ & ->)|(fields & _ & Hev)]]; try reflexivity.
    exact (process_event_included_mono _ _ _ _ Hev).
Qed.

Lemma allowed_use_recorded cfg ids use tid :
  include_tools cfg = true →
  Py.get "type" use = JStr "tool_use" →
  Py.get "id" use = JStr tid →
  tid ≠ EmptyString →
  name_excluded cfg (tool_name use) = false →
  extract_item cfg ids (JObj use)
  = (add_included (JStr tid) ids,
     Some (fence ("tool:" ++ tool_name use) (JsonDumps.dumps (Py.get "input" use))))
  ∧ tid ∈ included_of (add_included (JStr tid) ids).
Proof.
  intros Hon Htype Hid Hne Hname.
  unfold extract_item. rewrite Htype, Hon, Hid, Hname. cbn [is_tag String.eqb Ascii.eqb Bool.eqb].
  split; [reflexivity|].
  unfold add_included. cbn [Py.nonempty_str].
  destruct tid; [contradiction|]. cbn. set_solver.
Qed.

(** X10: A [tool_use] that passes the name filter is shown as a fenced
    block and its identifier is recorded as included; the identifier
    stays recorded over any number of later lines, and a later
    [tool_result] that refers to it is shown, also under an allow-list,
    unless the identifier was recorded as excluded as well. *)
Theorem allowed_use_shows_later_results
    cfg st0 fields fallback message before_use use after_use tid st1 n lines st2 result :
  include_tools cfg = true →
  turn_message fields = Some (fallback, message) →
  Py.get "content" message = JList (before_use ++ JObj use :: after_use) →
  Py.get "type" use = JStr "tool_use" →
  Py.get "id" use = JStr tid →
  tid ≠ EmptyString →
  name_excluded cfg (tool_name use) = false →
  process_event cfg st0 (JObj fields) = Returns st1 →
  run cfg n st1 lines = Returns st2 →
  Py.get "type" result = JStr "tool_result" →
  Py.get "tool_use_id" result = JStr tid →
  (∀ ids, (extract_item cfg ids (JObj use)).2
          = Some (fence ("tool:" ++ tool_name use) (JsonDumps.dumps (Py.get "input" use))))
  ∧ tid ∈ included_of (ids st1)
  ∧ tid ∈ included_of (ids st2)
  ∧ (tid ∉ excluded_of (ids st2) →
     extract_item cfg (ids st2) (JObj result) = (ids st2, rendered_result result)).
Proof.
  intros Hon Hgate Hcontent Htype Hid Hne Hname Hev Hrun Hrtype Hrid.
  assert (tid ∈ included_of (ids st1)) as H1.
  { destruct (process_event_returns _ _ _ _ Hev) as (fields' & [= <-] & _ & Hcase).
    rewrite Hgate in Hcase. destruct Hcase as (role & _ & -> & _).
    rewrite Hcontent. unfold extract_body.
    rewrite extract_parts_app.
    destruct (extract_parts cfg (ids st0) before_use) as [ids_b parts_b].
    cbn [fst snd extract_parts].
    destruct (allowed_use_recorded cfg ids_b use tid Hon Htype Hid Hne Hname) as [-> Hin].
    pose proof (extract_parts_included_mono cfg after_use (add_included (JStr tid) ids_b)) as Hm.
    destruct (extract_parts cfg (add_included (JStr tid) ids_b) after_use) as [ids_a parts_a].
    cbn [fst] in *. set_solver. }
  assert (tid ∈ included_of (ids st2)) as H2
    by (apply (run_included_mono _ _ _ _ _ Hrun); exact H1).
  split; [|split; [exact H1|split; [exact H2|]]].
  - intros ids0.
    destruct (allowed_use_recorded cfg ids0 use tid Hon Htype Hid Hne Hname) as [-> _].
    reflexivity.
  - intros Hnot. unfold extract_item, result_excluded, rendered_result.
    rewrite Hrtype, Hon, Hrid. cbn [is_tag String.eqb Ascii.eqb Bool.eqb str_in].
    rewrite (bool_decide_eq_false_2 _ Hnot), (bool_decide_eq_true_2 _ H2).
    cbn [negb orb]. rewrite andb_false_r. reflexivity.
Qed.

Lemma allowed_use_shows_later_results_witness :
  "t9" ∈ included_of (ids after_grep_and_chat)
  ∧ extract_item only_grep (ids after_grep_and_chat) (JObj grep_result)
    = (ids after_grep_and_chat, Some (fence "tool_result" "3 matches")).
Proof.
  assert ("t9" ∉ excluded_of (ids after_grep_and_chat)) as Hnot.
  { apply (bool_decide_eq_false_1 ("t9" ∈ excluded_of (ids after_grep_and_chat))).
    reflexivity. }
  destruct (allowed_use_shows_later_results only_grep initial
              (message_event "assistant" "assistant" (JList [JStr "searching"; JObj grep_use]))
              "assistant"
              [("role", JStr "assistant");
               ("content", JList [JStr "searching"; JObj grep_use])]
              [JStr "searching"] grep_use [] "t9" after_grep 2
              [Parsed (JObj (message_event "user" "user" (JStr "go on")))]
              after_grep_and_chat grep_result)
    as (_ & _ & Hin & Hshown);
    try reflexivity; try discriminate.
  split; [exact Hin|]. exact (Hshown Hnot).
Defined.

End Included.

(** ** Time stamps *)

Section Stamps.

Lemma leb_refl s : String.leb s s = true.
Proof.
  unfold String.leb.
  assert (String.compare s s = Eq) as -> by (apply OrderedTypeEx.String_as_OT.cmp_eq; reflexivity).
  reflexivity.
Qed.

Lemma ltb_lt a b : String.ltb a b = true ↔ OrderedTypeEx.String_as_OT.lt a b.
Proof.
  unfold String.ltb. rewrite <- OrderedTypeEx.String_as_OT.cmp_lt. unfold OrderedTypeEx.String_as_OT.cmp.
  destruct (String.compare a b); split; congruence.
Qed.

Lemma leb_cases a b : String.leb a b = true → a = b ∨ String.ltb a b = true.
Proof.
  unfold String.leb, String.ltb.
  destruct (String.compare a b) eqn:E; try discriminate; intros _.
  - left. apply String.compare_eq_iff. exact E.
  - right. reflexivity.
Qed.

Lemma ltb_leb a b : String.ltb a b = true → String.leb a b = true.
Proof. unfold String.leb, String.ltb. destruct (String.compare a b); congruence. Qed.

Lemma not_ltb_leb a b : String.ltb a b = false → String.leb b a = true.
Proof.
  unfold String.leb, String.ltb. rewrite (String.compare_antisym a b).
  destruct (String.compare b a); cbn; congruence.
Qed.

Lemma ltb_leb_trans a b c :
  String.ltb a b = true → String.leb b c = true → String.leb a c = true.
Proof.
  intros Hab [<-|Hbc]%leb_cases; [exact (ltb_leb _ _ Hab)|].
  apply ltb_leb, ltb_lt. apply (OrderedTypeEx.String_as_OT.lt_trans a b c); apply ltb_lt; assumption.
Qed.

Lemma leb_ltb_trans a b c :
  String.leb a b = true → String.ltb b c = true → String.leb a c = true.
Proof.
  intros [->|Hab]%leb_cases Hbc; [exact (ltb_leb _ _ Hbc)|].
  apply ltb_leb, ltb_lt. apply (OrderedTypeEx.String_as_OT.lt_trans a b c); apply ltb_lt; assumption.
Qed.

Lemma least_of_snoc stamps first t :
  least_of stamps first → least_of (stamps ++ [t]) (earliest t first).
Proof.
  unfold least_of, earliest. destruct first as [f|].
  - intros [Hin Hle]. destruct (String.ltb t f) eqn:Hlt.
    + split; [set_solver|]. intros x [Hx| ->%list_elem_of_singleton]%elem_of_app.
      * exact (ltb_leb_trans _ _ _ Hlt (Hle x Hx)).
      * apply leb_refl.
    + split; [set_solver|]. intros x [Hx| ->%list_elem_of_singleton]%elem_of_app.
      * exact (Hle x Hx).
      * exact (not_ltb_leb _ _ Hlt).
  - intros ->. split; [set_solver|].
    intros x ->%list_elem_of_singleton. apply leb_refl.
Qed.

Lemma greatest_of_snoc stamps last t :
  greatest_of stamps last → greatest_of (stamps ++ [t]) (latest t last).
Proof.
  unfold greatest_of, latest. destruct last as [l|].
  - intros [Hin Hle]. destruct (String.ltb l t) eqn:Hlt.
    + split; [set_solver|]. intros x [Hx| ->%list_elem_of_singleton]%elem_of_app.
      * exact (leb_ltb_trans _ _ _ (Hle x Hx) Hlt).
      * apply leb_refl.
    + split; [set_solver|]. intros x [Hx| ->%list_elem_of_singleton]%elem_of_app.
      * exact (Hle x Hx).
      * exact (not_ltb_leb _ _ Hlt).
  - intros ->. split; [set_solver|].
    intros x ->%list_elem_of_singleton. apply leb_refl.
Qed.

(** What one line does to the two stamps. *)
Lemma line_stamps cfg n st l st' :
  process_line cfg n st l = Returns st' →
  first_timestamp (parsed st')
  = match event_stamp l with
    | Some t => earliest t (first_timestamp (parsed st))
    | None => first_timestamp (parsed st)
    end
  ∧ last_timestamp (parsed st')
    = match event_stamp l with
      | Some t => latest t (last_timestamp (parsed st))
      | None => last_timestamp (parsed st)
      end.
Proof.
  intros Hline.
  destruct (process_line_returns _ _ _ _ _ Hline)
    as [[-> ->]|[(exc & -> & ->)|(fields & -> & Hev)]]; [split; reflexivity..|].
  destruct (process_event_returns _ _ _ _ Hev) as (fields' & [= <-] & _ & Hcase).
  assert (first_timestamp (parsed st') = first_timestamp (see_event fields (parsed st))
          ∧ last_timestamp (parsed st') = last_timestamp (see_event fields (parsed st)))
    as [-> ->].
  { destruct (turn_message fields) as [[fallback message]|].
    - destruct Hcase as (role & _ & _ & ->). cbn zeta.
      destruct (PyStr.truthy _); split; reflexivity.
    - destruct Hcase as [_ ->]. split; reflexivity. }
  cbn [event_stamp see_event first_timestamp last_timestamp].
  destruct (Py.get "timestamp" fields); split; reflexivity.
Qed.

Lemma run_stamps cfg lines n st st' :
  run cfg n st lines = Returns st' →
  ∀ seen,
    least_of seen (first_timestamp (parsed st)) →
    greatest_of seen (last_timestamp (parsed st)) →
    least_of (seen ++ stamps_of lines) (first_timestamp (parsed st'))
    ∧ greatest_of (seen ++ stamps_of lines) (last_timestamp (parsed st')).
Proof.
  intros Hrun.
  refine (run_returns_ind cfg
            (fun st lines st' =>
               ∀ seen,
                 least_of seen (first_timestamp (parsed st)) →
                 greatest_of seen (last_timestamp (parsed st)) →
                 least_of (seen ++ stamps_of lines) (first_timestamp (parsed st'))
                 ∧ greatest_of (seen ++ stamps_of lines) (last_timestamp (parsed st')))
            _ _ lines n st st' Hrun).
  - intros st0 seen Hf Hl. unfold stamps_of. cbn [omap]. rewrite app_nil_r. tauto.
  - intros k st0 l st1 rest st2 Hline IH seen Hf Hl.
    destruct (line_stamps _ _ _ _ _ Hline) as [Hfirst Hlast].
    unfold stamps_of in *. cbn [omap list_omap].
    destruct (event_stamp l) as [t|].
    + replace (seen ++ t :: omap event_stamp rest)%list
        with ((seen ++ [t]) ++ omap event_stamp rest)%list
        by (rewrite <- app_assoc; reflexivity).
      apply IH; [rewrite Hfirst; exact (least_of_snoc _ _ _ Hf)
                |rewrite Hlast; exact (greatest_of_snoc _ _ _ Hl)].
    + apply IH; [rewrite Hfirst; exact Hf | rewrite Hlast; exact Hl].
Qed.

(** X11: After a parse, [first_timestamp] and [last_timestamp] are the
    least and the greatest, as strings, of the string time stamps of all
    the events of the stream, whatever their type and whatever their
    order; there is neither when no event has one. *)
Theorem timestamps_are_extremes cfg lines st :
  iter_turns cfg lines = Returns st →
  least_of (stamps_of lines) (first_timestamp (parsed st))
  ∧ greatest_of (stamps_of lines) (last_timestamp (parsed st)).
Proof.
  intros Hrun.
  exact (run_stamps cfg lines 1 initial st Hrun [] eq_refl eq_refl).
Qed.

Lemma timestamps_are_extremes_witness :
  first_timestamp (parsed (state_after (iter_turns plain stamped_lines)))
  = Some "2024-05-01T09:00:00Z"
  ∧ last_timestamp (parsed (state_after (iter_turns plain stamped_lines)))
    = Some "2024-05-03T08:00:00Z"
  ∧ least_of (stamps_of stamped_lines)
      (first_timestamp (parsed (state_after (iter_turns plain stamped_lines)))).
Proof.
  split; [reflexivity|]. split; [reflexivity|].
  apply (timestamps_are_extremes plain stamped_lines). reflexivity.
Defined.

End Stamps.

(** ** The run as a whole: diagnostics, exceptions, growth *)

Section Stream.

(** What is printed is what was printed before and the diagnostics of
    the lines read, up to the line that raises if there is one. *)
Lemma run_printed cfg lines : ∀ n st,
  ∃ unread,
    (stderr st ++ diagnostics n lines)%list
    = (printed_of (run cfg n st lines) ++ unread)%list
    ∧ ∀ st', run cfg n st lines = Returns st' → unread = [].
Proof.
  induction lines as [|l rest IH]; intros n st.
  - exists []. split; [reflexivity|]. trivial.
  - cbn [run].
    pose proof (process_line_raises cfg n st l) as Hraise.
    destruct (process_line cfg n st l) as [st1|e printed] eqn:Hline.
    + destruct (IH (S n) st1) as (unread & Heq & Hdone).
      exists unread. split; [|exact Hdone].
      rewrite <- Heq.
      destruct (process_line_returns _ _ _ _ _ Hline)
        as [[-> ->]|[(exc & -> & ->)|(fields & -> & Hev)]].
      * reflexivity.
      * cbn [stderr diagnostics]. rewrite <- app_assoc. reflexivity.
      * destruct (process_event_returns _ _ _ _ Hev) as (_ & _ & -> & _). reflexivity.
    + destruct Hraise as [_ ->].
      exists (diagnostics n (l :: rest)). split; [reflexivity|]. discriminate.
Qed.

(** X12: The diagnostics are printed in the order of the lines and carry
    the numbers these lines have in the file, blank lines counted: a
    parse that returns has printed one for each line that does not
    decode and nothing else, one that raises has printed a first part of
    them. *)
Theorem diagnostics_in_order cfg lines :
  printed_of (iter_turns cfg lines) `prefix_of` diagnostics 1 lines
  ∧ (∀ st, iter_turns cfg lines = Returns st → stderr st = diagnostics 1 lines).
Proof.
  destruct (run_printed cfg lines 1 initial) as (unread & Heq & Hdone).
  cbn [stderr initial app] in Heq. split.
  - exists unread. exact Heq.
  - intros st Hrun. rewrite (Hdone st Hrun), app_nil_r in Heq.
    unfold iter_turns in Hrun. rewrite Hrun in Heq. symmetry. exact Heq.
Qed.

Lemma diagnostics_in_order_witness :
  stderr (state_after (iter_turns plain noisy_lines))
  = ["Skipping invalid JSON line 2: Extra data"; "Skipping invalid JSON line 4: Expecting value"].
Proof.
  destruct (diagnostics_in_order plain noisy_lines) as [_ Hall].
  rewrite (Hall (state_after (iter_turns plain noisy_lines)) eq_refl).
  reflexivity.
Defined.

Lemma returned_printed cfg lines st :
  iter_turns cfg lines = Returns st → stderr st = diagnostics 1 lines.
Proof.
  intros Hrun.
  destruct (run_printed cfg lines 1 initial) as (unread & Heq & Hdone).
  rewrite (Hdone st Hrun), app_nil_r in Heq.
  unfold iter_turns in Hrun. rewrite Hrun in Heq. symmetry. exact Heq.
Qed.

(** X13: The lines that end a parse.  A parse that returns has met no
    line that decodes to something other than a mapping, no event whose
    type is a list or a mapping, and no message of a user or assistant
    event whose role is true and not a string.  And when the lines
    before such a line are parsed without an exception and its message
    carries no usage mapping, the parse ends at that line with its
    exception ([AttributeError], [TypeError], [AttributeError]): what was
    printed for the lines before stays printed, and the lines after it
    are not read. *)
Theorem first_raising_line_ends_the_parse cfg :
  (∀ lines st,
      iter_turns cfg lines = Returns st →
      Forall (fun l => line_raises l = None) lines)
  ∧ (∀ before st1 l after e,
        iter_turns cfg before = Returns st1 →
        line_raises l = Some e →
        line_usage l = None →
        iter_turns cfg (before ++ l :: after) = Raises e (stderr st1)
        ∧ stderr st1 = diagnostics 1 before).
Proof.
  split.
  - intros lines st Hrun. exact (run_returns_no_raise _ _ _ _ _ Hrun).
  - intros before st1 l after e Hrun1 Hl _.
    split; [|exact (returned_printed cfg before st1 Hrun1)].
    unfold iter_turns in *. rewrite run_app, Hrun1. cbn [run].
    pose proof (process_line_raises cfg (1 + length before) st1 l) as Hraise.
    destruct (process_line cfg (1 + length before) st1 l) as [st2|e' printed].
    + congruence.
    + destruct Hraise as [He ->]. rewrite Hl in He. injection He as <-. reflexivity.
Qed.

Lemma first_raising_line_ends_the_parse_witness :
  iter_turns plain [Invalid "Extra data"; number_line; Invalid "Expecting value"]
  = Raises AttributeError ["Skipping invalid JSON line 1: Extra data"].
Proof.
  destruct (first_raising_line_ends_the_parse plain) as [_ Hfirst].
  destruct (Hfirst [Invalid "Extra data"]
              (state_after (iter_turns plain [Invalid "Extra data"]))
              number_line [Invalid "Expecting value"] AttributeError
              eq_refl eq_refl eq_refl) as [Hends _].
  exact Hends.
Defined.

End Stream.

(** ** Reading on only adds *)

Section Growth.

Lemma extends_refl r : extends r r.
Proof. unfold extends. repeat split; try reflexivity. Qed.

Lemma extends_trans a b c : extends a b → extends b c → extends a c.
Proof.
  unfold extends. intros (T1 & S1 & M1 & V1 & C1 & B1 & R1 & U1) (T2 & S2 & M2 & V2 & C2 & B2 & R2 & U2).
  repeat split; try (etransitivity; eassumption).
  intros name. etransitivity; [apply R1 | apply R2].
Qed.

Lemma line_extends cfg n st l st' :
  process_line cfg n st l = Returns st' → extends (parsed st) (parsed st').
Proof.
  intros Hline.
  destruct (line_step _ _ _ _ _ Hline) as (_ & Hsets & Hmodels & _ & Hrecords & Hturns).
  cbn zeta in *.
  unfold extends.
  assert (∀ key (proj : ParseResult → gset string),
            (key, proj) ∈ [("sessionId", session_ids); ("version", versions);
                            ("cwd", cwd_values); ("gitBranch", branches)] →
            proj (parsed st) ⊆ proj (parsed st')) as Hsub.
  { intros key proj Hin. rewrite (Hsets key proj Hin).
    destruct (event_field key l); set_solver. }
  split; [|split; [|split; [|split; [|split; [|split; [|split]]]]]].
  - destruct (line_emits cfg (ids st) l).
    + destruct Hturns as (t & -> & _). apply prefix_app_r. reflexivity.
    + destruct Hturns as [-> _]. reflexivity.
  - apply (Hsub "sessionId"). set_solver.
  - rewrite Hmodels. destruct (message_model l); set_solver.
  - apply (Hsub "version"). set_solver.
  - apply (Hsub "cwd"). set_solver.
  - apply (Hsub "gitBranch"). set_solver.
  - intros name. destruct (line_emits cfg (ids st) l).
    + destruct Hturns as (t & _ & _ & _ & ->).
      destruct (decide (role t = name)) as [<-|Hne].
      * rewrite lookup_insert_eq. cbn. lia.
      * rewrite lookup_insert_ne by exact Hne. reflexivity.
    + destruct Hturns as [_ ->]. reflexivity.
  - rewrite Hrecords. destruct (line_usage l); lia.
Qed.

Lemma run_extends cfg lines n st st' :
  run cfg n st lines = Returns st' → extends (parsed st) (parsed st').
Proof.
  intros Hrun.
  refine (run_returns_ind cfg (fun st _ st' => extends (parsed st) (parsed st'))
            _ _ lines n st st' Hrun).
  - intros st0. apply extends_refl.
  - intros k st0 l st1 rest st2 Hline IH.
    exact (extends_trans _ _ _ (line_extends _ _ _ _ _ Hline) IH).
Qed.

(** X14: Reading more lines only adds.  When the parse of a stream
    returns, so does the parse of any first part of it, and the longer
    parse has the turns of the shorter one first, its metadata sets and
    identifier sets within its own, no role counter and no record
    counter lower, and its diagnostics first. *)
Theorem reading_on_only_adds cfg lines more st2 :
  iter_turns cfg (lines ++ more) = Returns st2 →
  ∃ st1, iter_turns cfg lines = Returns st1
         ∧ extends (parsed st1) (parsed st2)
         ∧ stderr st1 `prefix_of` stderr st2
         ∧ excluded_of (ids st1) ⊆ excluded_of (ids st2)
         ∧ included_of (ids st1) ⊆ included_of (ids st2).
Proof.
  unfold iter_turns. rewrite run_app.
  destruct (run cfg 1 initial lines) as [st1|e printed] eqn:Hrun1; [|discriminate].
  intros Hrun2. exists st1. split; [reflexivity|].
  split; [exact (run_extends _ _ _ _ _ Hrun2)|].
  split.
  - pose proof (run_keeps_printed cfg more (1 + length lines) st1) as Hp.
    rewrite Hrun2 in Hp. exact Hp.
  - split; [exact (run_mono _ _ _ _ _ Hrun2) | exact (run_included_mono _ _ _ _ _ Hrun2)].
Qed.

Lemma reading_on_only_adds_witness :
  ∃ st1, iter_turns plain (take 2 noisy_lines) = Returns st1
         ∧ map body (turns (parsed st1)) = ["hi"]
         ∧ extends (parsed st1) (parsed (state_after (iter_turns plain noisy_lines))).
Proof.
  destruct (reading_on_only_adds plain (take 2 noisy_lines) (drop 2 noisy_lines)
              (state_after (iter_turns plain noisy_lines)) eq_refl)
    as (st1 & Hrun & Hext & _).
  exists st1. split; [exact Hrun|]. split; [|exact Hext].
  injection Hrun as <-. reflexivity.
Defined.

End Growth.

(** ** The document *)

Section Document.

Lemma join_cons sep x y parts :
  PyStr.join sep (x :: y :: parts) = x ++ sep ++ PyStr.join sep (y :: parts).
Proof. reflexivity. Qed.

Lemma join_snoc sep parts x :
  parts ≠ [] → PyStr.join sep (parts ++ [x]) = PyStr.join sep parts ++ sep ++ x.
Proof.
  induction parts as [|p rest IH]; [contradiction|]. intros _.
  destruct rest as [|q rest].
  - reflexivity.
  - change ((p :: q :: rest) ++ [x])%list with (p :: q :: (rest ++ [x]))%list.
    rewrite !join_cons.
    change (q :: (rest ++ [x]))%list with ((q :: rest) ++ [x])%list.
    rewrite IH by discriminate. rewrite !append_assoc. reflexivity.
Qed.

(** The text that is stripped begins with the three dashes. *)
Lemma document_head source result :
  ∃ rest,
    PyStr.join PyStr.nl (List.app (front_matter source result) (conversation source result))
    = "---" ++ rest.
Proof.
  unfold front_matter. cbn [List.concat List.app].
  eexists. rewrite join_cons. reflexivity.
Qed.

(** X15: The document begins with the three dashes of the front matter
    and ends with one newline, and what is before that newline does not
    end in white space: no blank line and no space is left at the end,
    whatever the turns are. *)
Theorem document_ends_with_one_newline source result :
  ∃ text,
    render_markdown source result = "---" ++ text ++ PyStr.nl
    ∧ PyStr.rstrip ("---" ++ text) = "---" ++ text.
Proof.
  unfold render_markdown.
  destruct (document_head source result) as (rest & ->).
  exists (PyStr.rstrip rest).
  assert (PyStr.rstrip ("---" ++ rest) = "---" ++ PyStr.rstrip rest) as Hr.
  { rewrite !append_cons. rewrite !rstrip_nonspace by reflexivity. reflexivity. }
  split.
  - rewrite Hr, append_assoc. reflexivity.
  - rewrite <- Hr. apply rstrip_idem.
Qed.

Lemma lines_end_with_last_turn source result earlier t :
  turns result = (earlier ++ [t])%list →
  ∃ above,
    above ≠ []
    ∧ List.app (front_matter source result) (conversation source result)
      = ((above ++ [body t]) ++ [EmptyString])%list.
Proof.
  intros Hturns. unfold conversation. rewrite Hturns, flat_map_app.
  cbn [flat_map turn_lines].
  exists (List.app (front_matter source result)
            (List.app (conversation_head source (length (earlier ++ [t])))
               (List.app (flat_map turn_lines earlier) [title t; EmptyString]))).
  split.
  - unfold front_matter. cbn [List.concat List.app]. discriminate.
  - cbn [List.app]. rewrite <- !app_assoc. cbn [List.app]. reflexivity.
Qed.

Lemma rendered_ends_with_body source result earlier t :
  turns result = (earlier ++ [t])%list →
  body t ≠ EmptyString → PyStr.rstrip (body t) = body t →
  ∃ above, render_markdown source result = above ++ PyStr.nl ++ body t ++ PyStr.nl.
Proof.
  intros Hturns Hne Hstripped.
  destruct (lines_end_with_last_turn source result earlier t Hturns) as (above & Habove & Heq).
  unfold render_markdown. rewrite Heq.
  rewrite join_snoc by (destruct above; discriminate).
  rewrite (join_snoc _ above) by exact Habove.
  exists (PyStr.join PyStr.nl above).
  rewrite (rstrip_app_blank _ (PyStr.nl ++ EmptyString)) by reflexivity.
  rewrite !rstrip_app; rewrite ?Hstripped; try exact Hne.
  - rewrite !append_assoc. reflexivity.
  - rewrite rstrip_app; rewrite Hstripped; [|exact Hne].
    destruct (body t); [contradiction|discriminate].
Qed.

(** X16: When the last turn has a body that is not empty and does not end
    in white space, as every turn of a parse has, the document ends with
    that body and one newline; so the document of a parse that has
    turns ends with the body of its last turn. *)
Theorem document_ends_with_last_body source :
  (∀ result earlier t,
      turns result = (earlier ++ [t])%list →
      body t ≠ EmptyString → PyStr.rstrip (body t) = body t →
      ∃ above, render_markdown source result = above ++ PyStr.nl ++ body t ++ PyStr.nl)
  ∧ (∀ cfg lines st earlier t,
        iter_turns cfg lines = Returns st →
        turns (parsed st) = (earlier ++ [t])%list →
        ∃ above,
          render_markdown source (parsed st) = above ++ PyStr.nl ++ body t ++ PyStr.nl).
Proof.
  split; [exact (rendered_ends_with_body source)|].
  intros cfg lines st earlier t Hrun Hturns.
  pose proof (run_normal cfg lines 1 initial st Hrun (Forall_nil_2 _)) as Hall.
  rewrite Hturns in Hall. apply Forall_app in Hall as [_ Ht].
  apply Forall_cons in Ht as [(Hne & Hstrip & _) _].
  apply (rendered_ends_with_body source (parsed st) earlier t Hturns Hne).
  rewrite <- Hstrip. apply strip_rstrip.
Qed.

Lemma document_ends_with_last_body_witness :
  ∃ above,
    render_markdown "log.jsonl" (parsed three_line_state)
    = above ++ PyStr.nl ++ "hello" ++ PyStr.nl.
Proof.
  destruct (document_ends_with_last_body "log.jsonl") as [_ Hparse].
  destruct (Hparse plain three_lines three_line_state
              [MkTurn 1 "User" JNull "hi"] (MkTurn 2 "Assistant" JNull "hello")
              eq_refl eq_refl) as (above & Heq).
  exists above. exact Heq.
Defined.

End Document.

(** ** The usage block of the front matter *)

Section UsageBlock.

Lemma stamp_line_other label stamp :
  (∀ rest, label ++ rest ≠ "usage:") → "usage:" ∉ stamp_line label stamp.
Proof.
  intros Hlabel. unfold stamp_line.
  destruct stamp as [t|]; [destruct (PyStr.truthy t)|]; try apply not_elem_of_nil.
  intros Hin%list_elem_of_singleton. exact (Hlabel _ (eq_sym Hin)).
Qed.

Lemma listing_other label values :
  (∀ rest, label ++ rest ≠ "usage:") → "usage:" ∉ listing label values.
Proof.
  intros Hlabel. unfold listing.
  destruct (bool_decide (values ≠ ∅)); [|apply not_elem_of_nil].
  intros [Heq|Hin]%elem_of_cons.
  - exact (Hlabel _ (eq_sym Heq)).
  - apply list_elem_of_fmap in Hin as (v & Heq & _). discriminate.
Qed.

Lemma role_lines_other counts : "usage:" ∉ role_lines counts.
Proof.
  unfold role_lines. intros Hin.
  apply list_elem_of_fmap in Hin as (v & Heq & _). discriminate.
Qed.

Lemma usage_lines_of_usage counts records :
  "usage:" ∈ usage_lines_of counts records ↔ counts ≠ ∅ ∨ records ≠ 0.
Proof.
  unfold usage_lines_of.
  destruct (bool_decide (counts ≠ ∅)) eqn:Hc; cbn [orb].
  - apply bool_decide_eq_true_1 in Hc. split; [tauto|]. intros _. apply list_elem_of_here.
  - apply bool_decide_eq_false_1 in Hc.
    destruct (Nat.eqb_spec records 0) as [->|Hr]; cbn [negb].
    + split; [intros []%not_elem_of_nil | tauto].
    + split; [tauto|]. intros _. apply list_elem_of_here.
Qed.

Lemma front_matter_usage source result :
  "usage:" ∈ front_matter source result
  ↔ usage_counts result ≠ ∅ ∨ usage_records result ≠ 0.
Proof.
  rewrite <- usage_lines_of_usage.
  unfold front_matter. cbn [List.concat]. rewrite app_nil_r.
  rewrite !elem_of_app.
  pose proof (stamp_line_other "first_timestamp" (first_timestamp result)) as H1.
  pose proof (stamp_line_other "last_timestamp" (last_timestamp result)) as H2.
  pose proof (listing_other "session_ids" (session_ids result)) as H3.
  pose proof (listing_other "models" (models result)) as H4.
  pose proof (listing_other "versions" (versions result)) as H5.
  pose proof (listing_other "cwd" (cwd_values result)) as H6.
  pose proof (listing_other "git_branches" (branches result)) as H7.
  pose proof (role_lines_other (role_counts result)) as H8.
  split; [|tauto].
  intros [Hin|[Hin|[Hin|[Hin|[Hin|[Hin|[Hin|[Hin|[Hin|[Hin|[Hin|Hin]]]]]]]]]]]; try exact Hin.
  - repeat (apply elem_of_cons in Hin as [Hin|Hin]; [discriminate|]).
    apply not_elem_of_nil in Hin as [].
  - exfalso. apply H1; [discriminate|exact Hin].
  - exfalso. apply H2; [discriminate|exact Hin].
  - exfalso. apply H3; [discriminate|exact Hin].
  - exfalso. apply H4; [discriminate|exact Hin].
  - exfalso. apply H5; [discriminate|exact Hin].
  - exfalso. apply H6; [discriminate|exact Hin].
  - exfalso. apply H7; [discriminate|exact Hin].
  - apply list_elem_of_singleton in Hin. discriminate.
  - exfalso. exact (H8 Hin).
  - repeat (apply elem_of_cons in Hin as [Hin|Hin]; [discriminate|]).
    apply not_elem_of_nil in Hin as [].
Qed.

Lemma no_usage_no_leaves lines :
  omap line_usage lines = [] → usage_leaves_of lines = [].
Proof.
  unfold usage_leaves_of.
  induction lines as [|l rest IH]; [reflexivity|].
  cbn [omap list_omap flat_map].
  destruct (line_usage l); [discriminate|]. exact IH.
Qed.

Lemma some_usage lines :
  omap line_usage lines ≠ [] ↔ Exists (fun l => is_Some (line_usage l)) lines.
Proof.
  induction lines as [|l rest IH].
  - split; [contradiction|]. intros H. inversion H.
  - cbn [omap list_omap]. rewrite Exists_cons.
    destruct (line_usage l) as [u|].
    + split; [|discriminate]. intros _. left. eauto.
    + rewrite IH. split; [tauto|]. intros [[u Hu]|H]; [discriminate|exact H].
Qed.

(** X17: In the document of a parse the [usage:] block is there exactly
    when a message of a turn event carried a usage mapping, with or
    without integers in it: the sums are never non-empty while the record
    counter is zero, so the counter alone decides. *)
Theorem usage_block_iff_usage_seen cfg lines st source :
  iter_turns cfg lines = Returns st →
  (usage_counts (parsed st) ≠ ∅ → usage_records (parsed st) ≠ 0)
  ∧ ("usage:" ∈ front_matter source (parsed st)
     ↔ Exists (fun l => is_Some (line_usage l)) lines).
Proof.
  intros Hrun.
  destruct (run_usage cfg lines 1 initial st Hrun) as [Hrecords Hcounts].
  cbn [initial parsed empty_result usage_records usage_counts] in Hrecords, Hcounts.
  assert (usage_counts (parsed st) ≠ ∅ → usage_records (parsed st) ≠ 0) as Hneed.
  { intros Hne Hzero. apply Hne. rewrite Hcounts.
    rewrite no_usage_no_leaves; [reflexivity|].
    rewrite Hrecords in Hzero. destruct (omap line_usage lines); [reflexivity|discriminate]. }
  split; [exact Hneed|].
  rewrite front_matter_usage, <- some_usage.
  split.
  - intros [Hc|Hr]; [apply Hneed in Hc|]; intros Hnil; rewrite Hrecords, Hnil in *; contradiction.
  - intros Hsome. right. rewrite Hrecords.
    destruct (omap line_usage lines); [contradiction|discriminate].
Qed.

Lemma usage_block_iff_usage_seen_witness :
  "usage:" ∈ front_matter "log.jsonl" (parsed usage_state)
  ∧ usage_counts (parsed (state_after
      (iter_turns plain [usage_line "assistant" (JObj [("tier", JStr "standard")])]))) = ∅
  ∧ "usage:" ∈ front_matter "log.jsonl"
      (parsed (state_after
         (iter_turns plain [usage_line "assistant" (JObj [("tier", JStr "standard")])]))).
Proof.
  split.
  - apply (usage_block_iff_usage_seen plain usage_lines usage_state "log.jsonl" eq_refl).
    apply Exists_cons_hd. eexists. reflexivity.
  - split; [reflexivity|].
    apply (usage_block_iff_usage_seen plain
             [usage_line "assistant" (JObj [("tier", JStr "standard")])] _ "log.jsonl" eq_refl).
    apply Exists_cons_hd. eexists. reflexivity.
Defined.

End UsageBlock.

(** ** Command line *)

Section CommandLine.

Lemma elem_of_bool_filter {A} (f : A → bool) l x :
  x ∈ List.filter f l ↔ f x = true ∧ x ∈ l.
Proof.
  induction l as [|y rest IH]; cbn [List.filter].
  - split; [intros []%not_elem_of_nil | intros [_ []%not_elem_of_nil]].
  - destruct (f y) eqn:Hy; rewrite ?elem_of_cons, IH; split.
    + intros [->|[Hx Hin]]; auto.
    + intros [Hx [->|Hin]]; auto.
    + intros [Hx Hin]; auto.
    + intros [Hx [->|Hin]]; [congruence|auto].
Qed.

Lemma tool_set_spec names name :
  name ∈ tool_set names
  ↔ name ≠ EmptyString ∧ ∃ flag, flag ∈ names ∧ normalize_tool_name flag = name.
Proof.
  unfold tool_set. rewrite elem_of_list_to_set, elem_of_bool_filter, list_elem_of_fmap.
  split.
  - intros [Ht (flag & -> & Hin)]. split; [|eauto].
    destruct (normalize_tool_name flag); [discriminate|]. discriminate.
  - intros [Hne (flag & Hin & <-)]. split; [|eauto].
    destruct (normalize_tool_name flag); [contradiction|reflexivity].
Qed.

Lemma tool_set_nonempty names :
  tool_set names ≠ ∅ ↔ ∃ flag, flag ∈ names ∧ normalize_tool_name flag ≠ EmptyString.
Proof.
  split.
  - intros Hne. apply set_choose_L in Hne as [name Hin].
    apply tool_set_spec in Hin as [Hname (flag & Hin & <-)]. eauto.
  - intros (flag & Hin & Hname) Hempty.
    assert (normalize_tool_name flag ∈ tool_set names) as H
      by (apply tool_set_spec; eauto).
    rewrite Hempty in H. set_solver.
Qed.

(** X18: The filters [main] hands on hold the normalized names of the
    flags and never the empty name, so a flag that is white space or
    nothing but the prefix names no tool and switches nothing on; tools
    are included when the flag says so or when one of the two lists names
    a tool. *)
Theorem command_line_filters args :
  (∀ name, name ∈ excluded_tools (main_config args)
           ↔ name ≠ EmptyString
             ∧ ∃ flag, flag ∈ Args.exclude_tools args ∧ normalize_tool_name flag = name)
  ∧ (∀ name, name ∈ only_tools (main_config args)
             ↔ name ≠ EmptyString
               ∧ ∃ flag, flag ∈ Args.only_tools args ∧ normalize_tool_name flag = name)
  ∧ (include_tools (main_config args) = true
     ↔ Args.include_tools args = true
       ∨ (∃ flag, flag ∈ Args.exclude_tools args ∧ normalize_tool_name flag ≠ EmptyString)
       ∨ (∃ flag, flag ∈ Args.only_tools args ∧ normalize_tool_name flag ≠ EmptyString))
  ∧ include_thinking (main_config args) = Args.include_thinking args.
Proof.
  split; [|split; [|split]].
  - intros name. apply tool_set_spec.
  - intros name. apply tool_set_spec.
  - unfold main_config. cbn [include_tools].
    rewrite !orb_true_iff, !bool_decide_eq_true, !tool_set_nonempty. tauto.
  - reflexivity.
Qed.

(** X19: A [tool_use] whose name normalizes to the same name as one of
    the [--exclude-tools] flags is not shown and its identifier is
    recorded as excluded, whether or not [--include-tools] was given; so
    is, when [--only-tools] names a tool, one whose name no such flag
    normalizes to. *)
Theorem named_tool_is_hidden args use ids :
  Py.get "type" use = JStr "tool_use" →
  ((∃ flag, flag ∈ Args.exclude_tools args
            ∧ normalize_tool_name flag ≠ EmptyString
            ∧ normalize_tool_name flag = tool_name use)
   ∨ ((∃ flag, flag ∈ Args.only_tools args ∧ normalize_tool_name flag ≠ EmptyString)
      ∧ ∀ flag, flag ∈ Args.only_tools args → normalize_tool_name flag ≠ tool_name use)) →
  extract_item (main_config args) ids (JObj use)
  = (add_excluded (Py.get "id" use) ids, None).
Proof.
  intros Htype Hflag.
  assert (include_tools (main_config args) = true) as Hon.
  { unfold main_config. cbn [include_tools].
    rewrite !orb_true_iff, !bool_decide_eq_true, !tool_set_nonempty.
    destruct Hflag as [(flag & Hin & Hne & _)|[(flag & Hin & Hne) _]]; eauto. }
  assert (name_excluded (main_config args) (tool_name use) = true) as Hname.
  { unfold name_excluded.
    change (only_tools (main_config args)) with (tool_set (Args.only_tools args)).
    change (excluded_tools (main_config args)) with (tool_set (Args.exclude_tools args)).
    destruct Hflag as [(flag & Hin & Hne & Heq)|[Hsome Hnone]].
    - apply orb_true_iff. right. apply bool_decide_eq_true.
      apply tool_set_spec. rewrite <- Heq. eauto.
    - apply orb_true_iff. left. apply andb_true_iff. split.
      + apply bool_decide_eq_true, tool_set_nonempty. exact Hsome.
      + apply negb_true_iff, bool_decide_eq_false.
        intros (_ & flag & Hin & Heq)%tool_set_spec. exact (Hnone flag Hin Heq). }
  unfold extract_item. rewrite Htype, Hon, Hname. reflexivity.
Qed.

Lemma named_tool_is_hidden_witness :
  include_tools (main_config sample_args) = true
  ∧ excluded_tools (main_config sample_args) = {[ "Read" ]}
  ∧ extract_item (main_config sample_args) no_ids (JObj read_use)
    = (add_excluded (JStr "t1") no_ids, None).
Proof.
  split; [reflexivity|]. split.
  - apply set_eq. intros name. unfold sample_args, main_config. cbn [excluded_tools Args.exclude_tools].
    rewrite tool_set_spec, elem_of_singleton. split.
    + intros (Hne & flag & [->|[->|[]%not_elem_of_nil]%elem_of_cons]%elem_of_cons & <-);
        [reflexivity | exfalso; apply Hne; reflexivity].
    + intros ->. split; [discriminate|]. exists " TOOL:Read ". split; [set_solver|reflexivity].
  - apply (named_tool_is_hidden sample_args read_use no_ids eq_refl).
    left. exists " TOOL:Read ". split; [set_solver|]. split; [discriminate|reflexivity].
Defined.

(** X20: How [main] ends.  Without the input file it returns 2, having
    printed one message and written nothing.  Whenever it returns, the
    code is 2 and the input is missing, or the code is 0, the parse has
    returned, the diagnostics of the lines that do not decode are what
    was printed, and the document is in the output file if one was named
    and on the standard output if not, never in both.  Whenever an
    exception of the parse goes through, the parse has raised it and
    what was printed is what the parse had printed; no document is
    written then, nor when the document cannot be encoded. *)
Theorem main_endings args file encodes :
  (file = None →
   main args file encodes
   = Exits 2 EmptyString ["Input file not found: " ++ Args.input args] None)
  ∧ (∀ code stdout printed written,
        main args file encodes = Exits code stdout printed written →
        match file with
        | None => code = 2 ∧ stdout = EmptyString ∧ written = None
        | Some lines =>
            code = 0
            ∧ printed = diagnostics 1 lines
            ∧ ∃ st, iter_turns (main_config args) lines = Returns st
                    ∧ encodes (render_markdown (Args.input args) (parsed st)) = true
                    ∧ match Args.output args with
                      | Some path =>
                          stdout = EmptyString
                          ∧ written
                            = Some (path, render_markdown (Args.input args) (parsed st))
                      | None =>
                          stdout = render_markdown (Args.input args) (parsed st)
                          ∧ written = None
                      end
        end)
  ∧ (∀ e printed,
        main args file encodes = Dies e printed →
        ∃ lines,
          file = Some lines
          ∧ match e with
            | ParseError e' => iter_turns (main_config args) lines = Raises e' printed
            | UnicodeEncodeError =>
                ∃ st, iter_turns (main_config args) lines = Returns st
                      ∧ printed = stderr st
                      ∧ encodes (render_markdown (Args.input args) (parsed st)) = false
            end).
Proof.
  split; [intros ->; reflexivity|]. split.
  - intros code stdout printed written. unfold main.
    destruct file as [lines|]; [|intros [= <- <- _ <-]; repeat split].
    destruct (iter_turns (main_config args) lines) as [st|e p] eqn:Hrun; [|discriminate].
    pose proof (returned_printed _ _ _ Hrun) as Hprinted.
    destruct (encodes (render_markdown (Args.input args) (parsed st))) eqn:Henc;
      [|discriminate].
    destruct (Args.output args) as [path|]; intros [= <- <- <- <-];
      (split; [reflexivity|]; split; [exact Hprinted|]);
      exists st; (split; [reflexivity|]); (split; [exact Henc|]); split; reflexivity.
  - intros e printed. unfold main.
    destruct file as [lines|]; [|discriminate].
    destruct (iter_turns (main_config args) lines) as [st|e' p] eqn:Hrun.
    + destruct (encodes (render_markdown (Args.input args) (parsed st))) eqn:Henc.
      * destruct (Args.output args); discriminate.
      * intros [= <- <-]. exists lines. split; [reflexivity|].
        exists st. split; [exact Hrun|]. split; [reflexivity|exact Henc].
    + intros [= <- <-]. exists lines. split; [reflexivity|exact Hrun].
Qed.

Lemma main_endings_witness :
  main sample_args None (fun _ => true)
  = Exits 2 EmptyString ["Input file not found: /tmp/session.jsonl"] None
  ∧ ∃ st, iter_turns (main_config sample_args) read_lines = Returns st
          ∧ main sample_args (Some read_lines) (fun _ => true)
            = Exits 0 (render_markdown "/tmp/session.jsonl" (parsed st)) [] None.
Proof.
  destruct (main_endings sample_args None (fun _ => true)) as [Hmissing _].
  split; [exact (Hmissing eq_refl)|].
  destruct (main_endings sample_args (Some read_lines) (fun _ => true)) as (_ & Hexit & _).
  destruct (Hexit 0 _ _ _ eq_refl) as (_ & _ & st & Hrun & _ & _).
  exists st. split; [exact Hrun|].
  injection Hrun as <-. reflexivity.
Defined.

End CommandLine.

(** ** What the filters and the blank lines do not change *)

Section Unchanged.

Lemma line_same_metadata cfg cfg' n n' st1 st2 l st1' st2' :
  same_metadata (parsed st1) (parsed st2) →
  process_line cfg n st1 l = Returns st1' →
  process_line cfg' n' st2 l = Returns st2' →
  same_metadata (parsed st1') (parsed st2').
Proof.
  intros (F & L & S & M & V & C & B & U & R) H1 H2.
  destruct (line_step _ _ _ _ _ H1) as (_ & Hsets1 & Hm1 & Hu1 & Hr1 & _).
  destruct (line_step _ _ _ _ _ H2) as (_ & Hsets2 & Hm2 & Hu2 & Hr2 & _).
  destruct (line_stamps _ _ _ _ _ H1) as [Hf1 Hl1].
  destruct (line_stamps _ _ _ _ _ H2) as [Hf2 Hl2].
  cbn zeta in *.
  unfold same_metadata.
  rewrite Hf1, Hf2, Hl1, Hl2, Hm1, Hm2, Hu1, Hu2, Hr1, Hr2.
  rewrite (Hsets1 "sessionId" session_ids), (Hsets2 "sessionId" session_ids) by set_solver.
  rewrite (Hsets1 "version" versions), (Hsets2 "version" versions) by set_solver.
  rewrite (Hsets1 "cwd" cwd_values), (Hsets2 "cwd" cwd_values) by set_solver.
  rewrite (Hsets1 "gitBranch" branches), (Hsets2 "gitBranch" branches) by set_solver.
  rewrite F, L, S, M, V, C, B, U, R. repeat split.
Qed.

Lemma run_same_metadata cfg cfg' lines : ∀ n n' st1 st2 st1' st2',
  same_metadata (parsed st1) (parsed st2) →
  run cfg n st1 lines = Returns st1' →
  run cfg' n' st2 lines = Returns st2' →
  same_metadata (parsed st1') (parsed st2').
Proof.
  induction lines as [|l rest IH]; intros n n' st1 st2 st1' st2' Hsame.
  - cbn [run]. intros [= <-] [= <-]. exact Hsame.
  - cbn [run].
    destruct (process_line cfg n st1 l) as [a|] eqn:Ha; [|discriminate].
    destruct (process_line cfg' n' st2 l) as [b|] eqn:Hb; [|discriminate].
    apply IH. exact (line_same_metadata _ _ _ _ _ _ _ _ _ Hsame Ha Hb).
Qed.

(** X21: The switches and the tool lists change bodies and turns, and
    nothing else.  Two parses of one stream that return, under any two
    configurations, have the same time stamps, the same five metadata
    sets, the same usage sums and record counter, and have printed the
    same diagnostics. *)
Theorem filters_leave_metadata_alone cfg cfg' lines st st' :
  iter_turns cfg lines = Returns st →
  iter_turns cfg' lines = Returns st' →
  same_metadata (parsed st) (parsed st') ∧ stderr st = stderr st'.
Proof.
  intros Hrun Hrun'. split.
  - apply (run_same_metadata cfg cfg' lines 1 1 initial initial st st'); try assumption.
    repeat split.
  - rewrite (returned_printed _ _ _ Hrun), (returned_printed cfg' lines st' Hrun').
    reflexivity.
Qed.

Lemma filters_leave_metadata_alone_witness :
  turns (parsed (state_after (iter_turns deny_read rich_lines)))
  ≠ turns (parsed (state_after (iter_turns all_tools rich_lines)))
  ∧ same_metadata (parsed (state_after (iter_turns all_tools rich_lines)))
      (parsed (state_after (iter_turns deny_read rich_lines))).
Proof.
  split; [discriminate|].
  apply (filters_leave_metadata_alone all_tools deny_read rich_lines _ _ eq_refl eq_refl).
Defined.

(** X22: A blank line changes nothing but the numbers of the lines after
    it: the parse of a stream and the parse of the stream without its
    blank lines end alike, with the same result or the same exception. *)
Theorem blank_lines_change_nothing cfg lines :
  fate (iter_turns cfg lines)
  = fate (iter_turns cfg (List.filter (fun l => negb (is_blank l)) lines)).
Proof.
  unfold iter_turns. generalize 1 at 1. generalize 1. generalize initial.
  induction lines as [|l rest IH]; intros st m n; [reflexivity|].
  destruct l as [|exc|event]; cbn [List.filter is_blank negb].
  - cbn [run process_line]. apply IH.
  - cbn [run process_line]. rewrite <- (IH _ (S m) (S n)).
    apply run_same_data; reflexivity.
  - cbn [run].
    pose proof (process_line_same_data cfg n m (parsed st) (ids st) (stderr st) (stderr st)
                  (Parsed event)) as Hsame.
    destruct st as [r i printed]. cbn [parsed ids stderr] in Hsame.
    destruct (process_line cfg n (MkState r i printed) (Parsed event)) as [a|e1 p1];
      destruct (process_line cfg m (MkState r i printed) (Parsed event)) as [b|e2 p2];
      try contradiction.
    + destruct Hsame as [Hp Hi]. rewrite <- (IH _ (S m) (S n)).
      apply run_same_data; assumption.
    + cbn [fate]. congruence.
Qed.

(** X23: A text given as a string, as the one element of a sequence, or
    as the one [text] item of a sequence gives the same body. *)
Theorem plain_text_three_ways cfg ids s :
  extract_body cfg ids (JList [JStr s]) = extract_body cfg ids (JStr s)
  ∧ extract_body cfg ids (JList [JObj [("type", JStr "text"); ("text", JStr s)]])
    = extract_body cfg ids (JStr s).
Proof.
  assert (PyStr.strip (PyStr.join blank_line (push_part (fragment (PyStr.strip s)) []))
          = PyStr.strip s) as Hbody.
  { unfold fragment. destruct (PyStr.strip s) as [|c r] eqn:Hs; [reflexivity|].
    cbn [PyStr.truthy push_part]. cbn [PyStr.join String.concat].
    rewrite <- Hs. apply strip_idem. }
  split; unfold extract_body; cbn [extract_parts extract_item coerce_text Py.get
    Py.get_default Py.lookup is_tag String.eqb Ascii.eqb Bool.eqb];
    rewrite Hbody; reflexivity.
Qed.

End Unchanged.

(** ** Sequences inside sequences *)

Section Flattening.

Lemma all_space_app a b : all_space (a ++ b) = all_space a && all_space b.
Proof.
  induction a as [|c r IH]; [reflexivity|].
  rewrite append_cons. cbn [all_space]. rewrite IH, andb_assoc. reflexivity.
Qed.

Lemma nonblank_not_all_space s : nonblank s = negb (all_space s).
Proof.
  unfold nonblank, PyStr.strip.
  induction s as [|c r IH]; [reflexivity|].
  cbn [PyStr.lstrip all_space].
  destruct (PyStr.is_space c) eqn:Hc; [exact IH|].
  rewrite (rstrip_nonspace c r Hc). reflexivity.
Qed.

Lemma coerce_text_list items :
  coerce_text (JList items)
  = PyStr.join PyStr.nl (List.filter nonblank (map coerce_text items)).
Proof. reflexivity. Qed.

(** Chunks that are not blank, joined, are not blank. *)
Lemma join_nonblank parts :
  Forall (fun p => nonblank p = true) parts → parts ≠ [] →
  nonblank (PyStr.join PyStr.nl parts) = true.
Proof.
  intros Hall Hne. destruct parts as [|p rest]; [contradiction|].
  apply Forall_cons in Hall as [Hp _].
  rewrite nonblank_not_all_space in *.
  destruct rest as [|q rest]; [exact Hp|].
  rewrite join_cons, all_space_app.
  apply negb_true_iff in Hp. rewrite Hp. reflexivity.
Qed.

Lemma filter_nonblank_all l : Forall (fun p => nonblank p = true) (List.filter nonblank l).
Proof.
  induction l as [|x rest IH]; [constructor|].
  cbn [List.filter]. destruct (nonblank x) eqn:Hx; [constructor; assumption|exact IH].
Qed.

Lemma join_app_nonempty sep xs ys :
  xs ≠ [] → ys ≠ [] →
  PyStr.join sep (xs ++ ys) = PyStr.join sep xs ++ sep ++ PyStr.join sep ys.
Proof.
  intros Hx Hy. induction xs as [|x rest IH]; [contradiction|].
  destruct rest as [|x' rest].
  - destruct ys as [|y ys]; [contradiction|]. reflexivity.
  - change ((x :: x' :: rest) ++ ys)%list with (x :: x' :: (rest ++ ys))%list.
    rewrite !join_cons.
    change (x' :: (rest ++ ys))%list with ((x' :: rest) ++ ys)%list.
    rewrite IH by discriminate. rewrite !append_assoc. reflexivity.
Qed.

(** The chunks of a sequence of sequences and those of the sequences
    put end to end: the same text, and none on one side exactly when
    none on the other. *)
Lemma chunks_of_groups groups :
  let outer := List.filter nonblank (map coerce_text (map JList groups)) in
  let inner := List.filter nonblank (map coerce_text (List.concat groups)) in
  PyStr.join PyStr.nl outer = PyStr.join PyStr.nl inner
  ∧ (outer = [] ↔ inner = []).
Proof.
  induction groups as [|g gs IH]; [split; reflexivity|].
  cbn zeta in *. destruct IH as [IHjoin IHnil].
  cbn [map List.concat]. rewrite map_app, List.filter_app.
  cbn [List.filter]. rewrite (coerce_text_list g).
  set (chunks := List.filter nonblank (map coerce_text g)) in *.
  set (outer := List.filter nonblank (map coerce_text (map JList gs))) in *.
  set (inner := List.filter nonblank (map coerce_text (List.concat gs))) in *.
  destruct chunks as [|c cs] eqn:Hchunks.
  - cbn. split; [exact IHjoin|exact IHnil].
  - assert (nonblank (PyStr.join PyStr.nl (c :: cs)) = true) as Hkept.
    { apply join_nonblank; [|discriminate].
      rewrite <- Hchunks. apply filter_nonblank_all. }
    rewrite Hkept. split; [|split; discriminate].
    destruct outer as [|o os] eqn:Houter.
    + assert (inner = []) as -> by (apply IHnil; reflexivity).
      rewrite app_nil_r. reflexivity.
    + assert (inner ≠ []) as Hinner by (intros H; apply IHnil in H; discriminate).
      rewrite join_app_nonempty by (discriminate || exact Hinner).
      rewrite join_cons, IHjoin. reflexivity.
Qed.

(** X24: For [coerce_text] a sequence of sequences is the sequences put
    end to end: grouping the elements of a list into inner lists, empty
    ones included, does not change the text. *)
Theorem coerce_text_flattens groups :
  coerce_text (JList (map JList groups)) = coerce_text (JList (List.concat groups)).
Proof.
  rewrite !coerce_text_list. exact (proj1 (chunks_of_groups groups)).
Qed.

End Flattening.
